(** * oldominion/indexer: event-producer utilities and handlers

    A shallow embedding of [lib/utils] (diff lookup, pattern matching, event
    identity, paginated fetching) and of the handlers built on it, over the
    untyped JSON values the program manipulates at run time.  TypeScript types
    are erased, so every function is modelled on [value]; an exception is a
    [Throw] in the [result] type. *)

From Stdlib Require Import ZArith List String Ascii Bool Lia DecimalString FinFun.
From Stdlib Require Import DecimalPos DecimalZ.
Import ListNotations.
Open Scope string_scope.
Open Scope Z_scope.
#[local] Set Warnings "-register-all".

(** ** Exceptions *)

Inductive exn : Type :=
| TypeError (msg : string)
| Error (msg : string)
| StructError (msg : string)
| FetchError (msg : string).

Inductive result (A : Type) : Type :=
| Ok (a : A)
| Throw (e : exn).

Arguments Ok {A} a.
Arguments Throw {A} e.

Definition bind {A B : Type} (m : result A) (k : A -> result B) : result B :=
  match m with
  | Ok a => k a
  | Throw e => Throw e
  end.

Notation "x <- m ;; k" := (bind m (fun x => k))
  (at level 61, m at next level, right associativity).

(** ** JavaScript values, as [JSON.parse] builds them *)

Module Js.

(** Numbers are the integers the indexing service sends (ids, counters,
    nonces, levels); an object is its list of own properties. *)
Inductive value : Type :=
| VUndefined
| VNull
| VBool (b : bool)
| VNum (n : Z)
| VStr (s : string)
| VArr (elems : list value)
| VObj (fields : list (string * value)).

Fixpoint lookup (k : string) (fields : list (string * value)) : option value :=
  match fields with
  | [] => None
  | (k', v) :: rest => if String.eqb k k' then Some v else lookup k rest
  end.

Definition isSome {A : Type} (o : option A) : bool :=
  match o with Some _ => true | None => false end.

(** [v == null] *)
Definition is_nullish (v : value) : bool :=
  match v with
  | VUndefined | VNull => true
  | _ => false
  end.

(** [ToBoolean] *)
Definition truthy (v : value) : bool :=
  match v with
  | VUndefined | VNull => false
  | VBool b => b
  | VNum n => negb (n =? 0)
  | VStr s => negb (String.eqb s "")
  | VArr _ | VObj _ => true
  end.

(** [a === b].  Two objects are equal only when they are the same reference;
    the operands compared in this program are parsed from distinct places, so
    two objects or two arrays never are. *)
Definition strict_eq (a b : value) : bool :=
  match a, b with
  | VUndefined, VUndefined => true
  | VNull, VNull => true
  | VBool x, VBool y => Bool.eqb x y
  | VNum x, VNum y => x =? y
  | VStr x, VStr y => String.eqb x y
  | _, _ => false
  end.

(** [Number.prototype.toString] on an integer: plain decimal digits. *)
Definition number_to_string (n : Z) : string :=
  NilZero.string_of_int (Z.to_int n).

Fixpoint join (sep : string) (parts : list string) : string :=
  match parts with
  | [] => ""
  | [p] => p
  | p :: rest => p ++ sep ++ join sep rest
  end.

(** [String(v)], which a template literal applies to each substitution. *)
Fixpoint to_string (v : value) : string :=
  match v with
  | VUndefined => "undefined"
  | VNull => "null"
  | VBool true => "true"
  | VBool false => "false"
  | VNum n => number_to_string n
  | VStr s => s
  | VArr elems =>
      join "," (map (fun e => if is_nullish e then "" else to_string e) elems)
  | VObj _ => "[object Object]"
  end.

Definition is_digit (c : ascii) : bool :=
  let n := nat_of_ascii c in (48 <=? n)%nat && (n <=? 57)%nat.

Fixpoint digits_value (acc : nat) (s : string) : option nat :=
  match s with
  | EmptyString => Some acc
  | String c rest =>
      if is_digit c
      then digits_value (10 * acc + (nat_of_ascii c - 48))%nat rest
      else None
  end.

(** A property name is an array index when it is the canonical decimal
    spelling of a natural number. *)
Definition parse_index (k : string) : option nat :=
  match k with
  | EmptyString => None
  | _ =>
      match digits_value 0%nat k with
      | Some n =>
          if String.eqb (number_to_string (Z.of_nat n)) k then Some n else None
      | None => None
      end
  end.

Fixpoint chars (s : string) : list value :=
  match s with
  | EmptyString => []
  | String c rest => VStr (String c EmptyString) :: chars rest
  end.

Definition indexed (elems : list value) (k : string) : value :=
  if String.eqb k "length" then VNum (Z.of_nat (List.length elems))
  else match parse_index k with
       | Some i => nth i elems VUndefined
       | None => VUndefined
       end.

(** [object[key]] for an [object] that is neither [null] nor [undefined]:
    own data properties.  (Inherited methods are functions, not JSON values;
    no property name read by this program names one.) *)
Definition get_prop (object : value) (key : string) : value :=
  match object with
  | VObj fields =>
      match lookup key fields with Some v => v | None => VUndefined end
  | VArr elems => indexed elems key
  | VStr s => indexed (chars s) key
  | _ => VUndefined
  end.

(** [object.key]: reading a property of [null] or [undefined] throws. *)
Definition member (object : value) (key : string) : result value :=
  if is_nullish object
  then Throw (TypeError "Cannot read properties of undefined")
  else Ok (get_prop object key).

Definition has_index (elems : list value) (k : string) : bool :=
  String.eqb k "length"
  || match parse_index k with
     | Some i => (i <? List.length elems)%nat
     | None => false
     end.

(** [key in Object(object)] *)
Definition has_key (object : value) (key : string) : bool :=
  match object with
  | VObj fields => isSome (lookup key fields)
  | VArr elems => has_index elems key
  | VStr s => has_index (chars s) key
  | _ => false
  end.

(** [key in object]: the right operand must be an object. *)
Definition has_property (key : string) (object : value) : result bool :=
  match object with
  | VObj _ | VArr _ => Ok (has_key object key)
  | _ => Throw (TypeError "Cannot use 'in' operator to search for a key in a primitive")
  end.

(** [Array.prototype.includes] on an array of strings. *)
Definition includes (xs : list string) (v : value) : bool :=
  existsb (fun x => strict_eq (VStr x) v) xs.

(** [Array.prototype.find] with a callback that may throw. *)
Fixpoint array_find (pred : value -> result bool) (xs : list value)
  : result value :=
  match xs with
  | [] => Ok VUndefined
  | x :: rest =>
      b <- pred x ;;
      if b then Ok x else array_find pred rest
  end.

(** [Array.prototype.filter] with a callback that may throw. *)
Fixpoint array_filter (pred : value -> result bool) (xs : list value)
  : result (list value) :=
  match xs with
  | [] => Ok []
  | x :: rest =>
      b <- pred x ;;
      kept <- array_filter pred rest ;;
      Ok (if b then x :: kept else kept)
  end.

(** Assigning a property: an existing key keeps its place. *)
Fixpoint set_prop (k : string) (v : value) (fields : list (string * value))
  : list (string * value) :=
  match fields with
  | [] => [(k, v)]
  | (k', v') :: rest =>
      if String.eqb k k' then (k', v) :: rest else (k', v') :: set_prop k v rest
  end.

End Js.
Import Js.

(** ** lodash: [get] and [uniqBy] *)

Module Lodash.

Definition is_word_char (c : ascii) : bool :=
  let n := nat_of_ascii c in
  is_digit c
  || ((65 <=? n)%nat && (n <=? 90)%nat)
  || ((97 <=? n)%nat && (n <=? 122)%nat)
  || (n =? 95)%nat.

Fixpoint all_chars (p : ascii -> bool) (s : string) : bool :=
  match s with
  | EmptyString => true
  | String c rest => p c && all_chars p rest
  end.

Fixpoint has_char (c : ascii) (s : string) : bool :=
  match s with
  | EmptyString => false
  | String c' rest => Ascii.eqb c c' || has_char c rest
  end.

(** [reIsPlainProp = /^\w*$/] *)
Definition reIsPlainProp (path : string) : bool := all_chars is_word_char path.

(** [reIsDeepProp], on the paths of this program, which use dots and no
    brackets: a deep path is one with a dot. *)
Definition reIsDeepProp (path : string) : bool := has_char "."%char path.

Definition isKey (path : string) (object : value) : bool :=
  reIsPlainProp path || negb (reIsDeepProp path) || has_key object path.

(** [stringToPath] on a path without brackets: the segments between dots. *)
Fixpoint split_dots (cur : string) (s : string) : list string :=
  match s with
  | EmptyString => [cur]
  | String c rest =>
      if Ascii.eqb c "."%char
      then cur :: split_dots "" rest
      else split_dots (cur ++ String c EmptyString) rest
  end.

Definition stringToPath (path : string) : list string := split_dots "" path.

Definition castPath (path : string) (object : value) : list string :=
  if isKey path object then [path] else stringToPath path.

(** [baseGet]: walk the segments while the current object is not nullish;
    the result is [undefined] unless every segment was consumed. *)
Fixpoint baseGet (object : value) (path : list string) : value :=
  match path with
  | [] => object
  | key :: rest =>
      if is_nullish object then VUndefined
      else baseGet (get_prop object key) rest
  end.

Definition get (object : value) (path : string) : value :=
  if is_nullish object then VUndefined
  else baseGet object (castPath path object).

(** [property(key)], the iteratee [uniqBy] builds from a property name. *)
Definition property (key : string) (object : value) : value :=
  if is_nullish object then VUndefined else get_prop object key.

(** [SameValueZero], which on integers and strings is [===]. *)
Definition same_value_zero (a b : value) : bool := strict_eq a b.

(** [baseUniq]: keep a value when its computed key was not seen before. *)
Fixpoint baseUniq (iteratee : value -> value) (seen : list value)
  (array : list value) : list value :=
  match array with
  | [] => []
  | x :: rest =>
      let computed := iteratee x in
      if existsb (same_value_zero computed) seen
      then baseUniq iteratee seen rest
      else x :: baseUniq iteratee (seen ++ [computed]) rest
  end.

Definition uniqBy (array : list value) (key : string) : list value :=
  baseUniq (property key) [] array.

(** [omit(object, keys)] on a flat object. *)
Definition omit (object : value) (keys : list string) : value :=
  match object with
  | VObj fields =>
      VObj (List.filter (fun kv => negb (existsb (String.eqb (fst kv)) keys)) fields)
  | _ => VObj []
  end.

End Lodash.
Import Lodash.

(** ** superstruct: the structs the handlers assert *)

Module Superstruct.

Definition Struct : Type := value -> bool.

Definition string_ : Struct :=
  fun v => match v with VStr _ => true | _ => false end.

Definition optional (s : Struct) : Struct :=
  fun v => match v with VUndefined => true | _ => s v end.

(** [object(schema)]: the value is an object, every key of the schema
    validates the value's property, and the value has no other key. *)
Definition object (schema : list (string * Struct)) : Struct :=
  fun v =>
    match v with
    | VObj fields =>
        forallb (fun ks => snd ks (get_prop v (fst ks))) schema
        && forallb (fun kv => existsb (fun ks => String.eqb (fst kv) (fst ks)) schema)
             fields
    | _ => false
    end.

Definition assert (v : value) (s : Struct) : result unit :=
  if s v then Ok tt else Throw (StructError "value does not match the struct").

End Superstruct.

(** ** Sample data

    Concrete stand-ins for what the program takes from outside (a digest, the
    validators, an indexing service) and concrete records, on which the
    statements below are instantiated. *)

Module Sample.

Definition digest (text : string) : string := "digest(" ++ text ++ ")".

Definition positive : Superstruct.Struct :=
  fun v => match v with VNum n => 0 <? n | _ => false end.

Definition marketplace : string := "KT1Marketplace".

Definition ask_diff (bigmap : Z) (key : string) : value :=
  VObj [("bigmap", VNum bigmap); ("path", VStr "asks");
        ("action", VStr "remove_key");
        ("content",
         VObj [("key", VStr key);
               ("value",
                VObj [("token",
                       VObj [("address", VStr "KT1Token");
                             ("token_id", VStr "5")]);
                      ("creator", VStr "tz1Seller")])])].

Definition retract_fields : list (string * value) :=
  [("id", VNum 42); ("level", VNum 100);
   ("timestamp", VStr "2022-01-01T00:00:00Z");
   ("hash", VStr "opHash"); ("counter", VNum 7); ("nonce", VNull);
   ("target", VObj [("address", VStr marketplace)]);
   ("parameter", VObj [("entrypoint", VStr "retract_ask"); ("value", VStr "12")]);
   ("diffs", VArr [ask_diff 1 "12"; ask_diff 574013 "12"])].

Definition record (id : nat) : value := VObj [("id", VNum (Z.of_nat id))].

(** An indexing service with [total] records, ids [0 .. total - 1], that
    answers a request with the records from its offset up to its limit. *)
Definition service (total : Z) (url : string) (params : list (string * value))
  (w : unit) : result (list value) * unit :=
  match lookup "offset" params, lookup "limit" params with
  | Some (VNum offset), Some (VNum limit) =>
      (Ok (map record
             (seq (Z.to_nat offset) (Z.to_nat (Z.min limit (total - offset))))),
       w)
  | _, _ => (Throw (FetchError "bad request"), w)
  end.

(** A service that answers every request with the same two records. *)
Definition two_records (url : string) (params : list (string * value)) (w : unit)
  : result (list value) * unit :=
  (Ok [record 1; record 2], w).

(** A service whose second page starts with the last record of the first. *)
Definition overlapping (url : string) (params : list (string * value)) (w : unit)
  : result (list value) * unit :=
  match lookup "offset" params with
  | Some (VNum 0) => (Ok [record 1; record 2], w)
  | _ => (Ok [record 2], w)
  end.



(** A numeral: a non-empty text of digits. *)
Definition numeral : Superstruct.Struct :=
  fun v => match v with
           | VStr t => negb (String.eqb t "") && all_chars is_digit t
           | _ => false
           end.

(** The sample [retract_ask] transaction with, before the diff of ask "12",
    a [remove_key] diff of the same bigmap and path for ask "99", whose
    content has no value, and an [update_key] diff for ask "12". *)
Definition retract_among_other_asks : list (string * value) :=
  [("id", VNum 42); ("level", VNum 100);
   ("timestamp", VStr "2022-01-01T00:00:00Z");
   ("hash", VStr "opHash"); ("counter", VNum 7); ("nonce", VNull);
   ("target", VObj [("address", VStr marketplace)]);
   ("parameter", VObj [("entrypoint", VStr "retract_ask"); ("value", VStr "12")]);
   ("diffs",
    VArr [VObj [("bigmap", VNum 574013); ("path", VStr "asks");
                ("action", VStr "remove_key");
                ("content", VObj [("key", VStr "99")])];
          VObj [("bigmap", VNum 574013); ("path", VStr "asks");
                ("action", VStr "update_key");
                ("content", VObj [("key", VStr "12")])];
          ask_diff 574013 "12"])].


End Sample.

(** ** JavaScript string methods *)

Module JsString.

(** [s.startsWith(prefix)] *)
Fixpoint startsWith (s prefix : string) {struct prefix} : bool :=
  match prefix, s with
  | EmptyString, _ => true
  | String p prefix', String c s' => Ascii.eqb c p && startsWith s' prefix'
  | String _ _, EmptyString => false
  end.

(** Lower case of a code unit below 256: the letters A-Z and the accented
    capitals U+00C0-U+00DE, the multiplication sign excepted. *)
Definition lower_char (c : ascii) : ascii :=
  let n := nat_of_ascii c in
  if ((65 <=? n)%nat && (n <=? 90)%nat)
     || ((192 <=? n)%nat && (n <=? 222)%nat && negb (n =? 215)%nat)
  then ascii_of_nat (n + 32)
  else c.

Fixpoint toLowerCase (s : string) : string :=
  match s with
  | EmptyString => EmptyString
  | String c s' => String (lower_char c) (toLowerCase s')
  end.

Fixpoint drop (n : nat) (s : string) : string :=
  match n, s with
  | O, _ => s
  | S n', String _ s' => drop n' s'
  | S _, EmptyString => EmptyString
  end.

(** [s.replace(pattern, replacement)] for a string pattern and a replacement
    without [$]: the leftmost occurrence is replaced. *)
Fixpoint replace (s pattern replacement : string) : string :=
  if startsWith s pattern
  then replacement ++ drop (String.length pattern) s
  else match s with
       | EmptyString => EmptyString
       | String c s' => String c (replace s' pattern replacement)
       end.

End JsString.

(** ** lib/utils *)

Section Indexer.

(** The [metrohash] package's 128-bit digest, rendered as text. *)
Variable metrohash128 : string -> string.

(** [action: BigmapDiffAction | Array<BigmapDiffAction>] *)
Inductive ActionArg : Type :=
| OneAction (a : string)
| ManyActions (l : list string).

(** [key] is [VUndefined] when the optional argument is left out. *)
Definition isMatchingDiff (diff : value) (bigmapId : option Z) (path : string)
  (action : ActionArg) (key : value) : result bool :=
  let actions := match action with ManyActions l => l | OneAction a => [a] end in
  scoped <- match bigmapId with
            | None => Ok true
            | Some id => b <- member diff "bigmap" ;; Ok (strict_eq b (VNum id))
            end ;;
  if negb scoped then Ok false else
  p <- member diff "path" ;;
  if negb (strict_eq p (VStr path)) then Ok false else
  a <- member diff "action" ;;
  if negb (includes actions a) then Ok false else
  if truthy key
  then content <- member diff "content" ;;
       k <- member content "key" ;;
       Ok (strict_eq k key)
  else Ok true.

(** [diffs.find(...)]: [diffs] must be an array. *)
Definition findDiff (diffs : value) (bigmapId : option Z) (path : string)
  (action : ActionArg) (key : value) : result value :=
  match diffs with
  | VArr elems =>
      array_find (fun diff => isMatchingDiff diff bigmapId path action key) elems
  | _ => Throw (TypeError "diffs.find is not a function")
  end.

Definition filterDiffs (diffs : value) (bigmapId : option Z) (path : string)
  (action : ActionArg) (key : value) : result (list value) :=
  match diffs with
  | VArr elems =>
      array_filter (fun diff => isMatchingDiff diff bigmapId path action key) elems
  | _ => Throw (TypeError "diffs.filter is not a function")
  end.

(** The attributes a [Pattern] may declare, each with a string literal. *)
Inductive PatternKey : Type :=
| entrypoint
| target_address.

Definition Pattern : Type := list (PatternKey * string).

Definition PATTERN_TO_PATH (key : PatternKey) : string :=
  match key with
  | entrypoint => "parameter.entrypoint"
  | target_address => "target.address"
  end.

Definition transactionMatchesPattern (transaction : value) (pattern : Pattern)
  : bool :=
  forallb
    (fun entry => strict_eq (get transaction (PATTERN_TO_PATH (fst entry)))
                    (VStr (snd entry)))
    pattern.

Definition missing_properties : exn :=
  Error "transaction does not have all the properties needed (counter, hash and nonce) to create an eventId.".

(** The text [createEventId] hands to the digest. *)
Definition eventIdInput (handlerName : string) (hash counter nonce : value)
  (idx : Z) : string :=
  handlerName ++ ":" ++ to_string hash ++ ":" ++ to_string counter ++ ":"
  ++ (if negb (strict_eq nonce VNull) then to_string nonce else "unset")
  ++ ":" ++ number_to_string idx.

Definition createEventId (handlerName : string) (transaction : value) (idx : Z)
  : result string :=
  has_hash <- has_property "hash" transaction ;;
  has_counter <- (if has_hash then has_property "counter" transaction else Ok false) ;;
  has_nonce <- (if has_counter then has_property "nonce" transaction else Ok false) ;;
  if negb has_nonce then Throw missing_properties else
  hash <- member transaction "hash" ;;
  counter <- member transaction "counter" ;;
  nonce <- member transaction "nonce" ;;
  Ok (metrohash128 (eventIdInput handlerName hash counter nonce idx)).

(** *** Paginated fetching

    [got] is the HTTP client: it answers a request (URL and search
    parameters) in a state of the outside world and leaves a new state. *)

Variable World : Type.
Variable got : string -> list (string * value) -> World
               -> result (list value) * World.
Variable tzktApiUrl : string.

(** What one call did: its outcome, the requests it issued, each with the
    answer it got, and the world it left. *)
Record Fetch : Type := mkFetch {
  outcome : result (list value);
  requests : list (list (string * value) * result (list value));
  final : World
}.

Definition searchParams (filters : list (string * value)) (currentPage perPage : Z)
  (select : string) : list (string * value) :=
  set_prop "select" (VStr select)
    (set_prop "status" (VStr "applied")
       (set_prop "limit" (VNum perPage)
          (set_prop "offset" (VNum (currentPage * perPage)) filters))).

(** The [do ... while (currentPage < maxPages)] loop shared by
    [getTransactions] and [getOriginations]; [fuel] bounds the iterations and
    [None] means it ran out. *)
Fixpoint fetchLoop (fuel : nat) (url : string) (filters : list (string * value))
  (perPage maxPages : Z) (select : string) (currentPage : Z)
  (all : list value)
  (log : list (list (string * value) * result (list value)))
  (w : World) : option Fetch :=
  match fuel with
  | O => None
  | S fuel' =>
      let params := searchParams filters currentPage perPage select in
      match got url params w with
      | (Throw e, w') =>
          Some (mkFetch (Throw e) (log ++ [(params, Throw e)])%list w')
      | (Ok page, w') =>
          let all' := (all ++ page)%list in
          let log' := (log ++ [(params, Ok page)])%list in
          if Z.of_nat (List.length page) <? perPage
          then Some (mkFetch (Ok (uniqBy all' "id")) log' w')
          else
            let currentPage' := currentPage + 1 in
            if currentPage' <? maxPages
            then fetchLoop fuel' url filters perPage maxPages select
                   currentPage' all' log' w'
            else Some (mkFetch (Ok (uniqBy all' "id")) log' w')
      end
  end.

Definition default_select : string :=
  "id,level,timestamp,block,hash,counter,nonce,sender,target,amount,parameter,status,hasInternals,initiator,storage,diffs".

Definition originations_select : string :=
  "id,nonce,level,timestamp,block,counter,hash,initiator,sender,status,storage,originatedContract".

Definition transactions_url : string := tzktApiUrl ++ "/operations/transactions".

Definition originations_url : string := tzktApiUrl ++ "/operations/originations".

(** [select] defaults to [default_select], [perPage] to 2000, [maxPages] to 20. *)
Definition getTransactions (filters : list (string * value)) (perPage maxPages : Z)
  (select : string) (w : World) : option Fetch :=
  fetchLoop (S (Z.to_nat maxPages)) transactions_url
    filters perPage maxPages select 0 [] [] w.

Definition getOriginations (filters : list (string * value)) (perPage maxPages : Z)
  (w : World) : option Fetch :=
  fetchLoop (S (Z.to_nat maxPages)) originations_url
    filters perPage maxPages originations_select 0 [] [] w.

(** ** Event-producer handlers *)

(** The structs of [lib/validators] and the addresses of [consts]. *)
Variable ContractAddress TezosAddress IsoDateString PositiveInteger PgBigInt
  : Superstruct.Struct.
Variable OBJKT_CONTRACT_MARKETPLACE_V3 : string.
Variable EIGHTBIDOU_24X24_MONOCHROME_CONTRACT_MARKETPLACE : string.

(** *** handlers/objkt_retract_ask_v3 *)

Definition EVENT_TYPE_OBJKT_RETRACT_ASK_V3 : string := "OBJKT_RETRACT_ASK_V3".

Definition ObjktRetractAskV3EventSchema : Superstruct.Struct :=
  Superstruct.object
    [("id", Superstruct.string_);
     ("opid", PgBigInt);
     ("timestamp", IsoDateString);
     ("level", PositiveInteger);
     ("fa2_address", ContractAddress);
     ("token_id", Superstruct.string_);
     ("ophash", Superstruct.string_);
     ("artist_address", Superstruct.optional TezosAddress);
     ("seller_address", TezosAddress);
     ("ask_id", PgBigInt)].

Definition ObjktRetractAskV2Handler_accept : Pattern :=
  [(entrypoint, "retract_ask"); (target_address, OBJKT_CONTRACT_MARKETPLACE_V3)].

Definition ObjktRetractAskV2Handler_exec (transaction : value) : result value :=
  let askId := get transaction "parameter.value" in
  diff <- findDiff (get transaction "diffs") (Some 574013) "asks"
            (OneAction "remove_key") askId ;;
  let fa2Address := get diff "content.value.token.address" in
  let tokenId := get diff "content.value.token.token_id" in
  let sellerAddress := get diff "content.value.creator" in
  id <- createEventId EVENT_TYPE_OBJKT_RETRACT_ASK_V3 transaction 0 ;;
  opid <- member transaction "id" ;;
  ophash <- member transaction "hash" ;;
  level <- member transaction "level" ;;
  timestamp <- member transaction "timestamp" ;;
  let event :=
    VObj [("id", VStr id);
          ("type", VStr EVENT_TYPE_OBJKT_RETRACT_ASK_V3);
          ("opid", VStr (to_string opid));
          ("ophash", ophash);
          ("level", level);
          ("timestamp", timestamp);
          ("fa2_address", fa2Address);
          ("seller_address", sellerAddress);
          ("token_id", tokenId);
          ("ask_id", askId)] in
  _ <- Superstruct.assert (omit event ["type"]) ObjktRetractAskV3EventSchema ;;
  Ok event.

(** *** The 8BID_24X24_MONOCHROME_CANCEL_SWAP handler *)

Definition EVENT_TYPE_8BID_24X24_MONOCHROME_CANCEL_SWAP : string :=
  "8BID_24X24_MONOCHROME_CANCEL_SWAP".

Definition EightbidCancelSwap24x24MonochromeSchema : Superstruct.Struct :=
  Superstruct.object
    [("id", Superstruct.string_);
     ("opid", PositiveInteger);
     ("timestamp", IsoDateString);
     ("level", PositiveInteger);
     ("fa2_address", ContractAddress);
     ("token_id", Superstruct.string_);
     ("seller_address", TezosAddress);
     ("artist_address", TezosAddress);
     ("swap_id", PgBigInt)].

Definition EightbidCancelSwap8x8ColorEvent_accept : Pattern :=
  [(entrypoint, "cancelswap");
   (target_address, EIGHTBIDOU_24X24_MONOCHROME_CONTRACT_MARKETPLACE)].

Definition EightbidCancelSwap8x8ColorEvent_exec (transaction : value)
  : result value :=
  let swapId := get transaction "parameter.value" in
  diffs <- member transaction "diffs" ;;
  diff <- findDiff diffs (Some 128202) "swap_list" (OneAction "update_key") swapId ;;
  let fa2Address := get diff "content.value.nft_contract_address" in
  let tokenId := get diff "content.value.nft_id" in
  let sellerAddress := get diff "content.value.seller" in
  let artistAddress := get diff "content.value.creator" in
  opid <- member transaction "id" ;;
  id <- createEventId EVENT_TYPE_8BID_24X24_MONOCHROME_CANCEL_SWAP opid 0 ;;
  timestamp <- member transaction "timestamp" ;;
  level <- member transaction "level" ;;
  let event :=
    VObj [("id", VStr id);
          ("type", VStr EVENT_TYPE_8BID_24X24_MONOCHROME_CANCEL_SWAP);
          ("opid", opid);
          ("timestamp", timestamp);
          ("level", level);
          ("fa2_address", fa2Address);
          ("seller_address", sellerAddress);
          ("artist_address", artistAddress);
          ("token_id", tokenId);
          ("swap_id", swapId)] in
  _ <- Superstruct.assert (omit event ["type"]) EightbidCancelSwap24x24MonochromeSchema ;;
  Ok event.

(** ** lib/utils, the remaining helpers *)

(** The [CURRENCY_MAPPINGS] table of [consts]. *)
Variable CURRENCY_MAPPINGS : list (string * value).

Definition extractObjktCurrency (currency : value) : result value :=
  has_tez <- has_property "tez" currency ;;
  if has_tez then Ok (VStr "tez") else
  has_fa12 <- has_property "fa12" currency ;;
  if has_fa12
  then fa12 <- member currency "fa12" ;;
       let mapped := get_prop (VObj CURRENCY_MAPPINGS) (to_string fa12) in
       if truthy mapped then Ok mapped else Ok fa12
  else Ok VNull.

(** [env] is [process.env]. *)
Definition getTaskName (env : list (string * value)) (name : string) : string :=
  let taskNamePrefix := get_prop (VObj env) "TASK_NAME_PREFIX" in
  if truthy taskNamePrefix
  then to_string taskNamePrefix ++ "_" ++ name
  else name.

Definition isTezLikeCurrencyStrict (currency : value) : bool :=
  strict_eq currency (VStr "tez") || strict_eq currency (VStr "otez").

Definition isTezLikeCurrency (currency : value) : bool :=
  if negb (truthy currency) then true
  else strict_eq currency (VStr "tez") || strict_eq currency (VStr "otez").

(** The arithmetic of JavaScript numbers that [splitsToRoyaltyShares] uses:
    [parseInt(s, 10)], the product of two numbers and [String(n)]. *)
Variable Number : Type.
Variable parseInt10 : string -> Number.
Variable multiply : Number -> Number -> Number.
Variable numberToString : Number -> string.

Record Split : Type := mkSplit { pct : string; address : string }.

(** [memo[key] = text] on a plain object, for a string [text]: the key
    "__proto__" reaches the setter inherited from [Object.prototype], which
    ignores a string and creates no property; any other key becomes, or
    stays, an own property holding [text]. *)
Definition assign_text (key text : string) (memo : list (string * value))
  : list (string * value) :=
  if String.eqb key "__proto__" then memo else set_prop key (VStr text) memo.

(** [splits.reduce((memo, split) => ..., {})], the object being built. *)
Definition royaltyShares (totalRoyaltiesInt : Number) (splits : list Split)
  (memo : list (string * value)) : list (string * value) :=
  fold_left
    (fun memo split =>
       assign_text (address split)
         (numberToString (multiply totalRoyaltiesInt (parseInt10 (pct split))))
         memo)
    splits memo.

Definition splitsToRoyaltyShares (splits : list Split) (totalRoyalties : string)
  : value :=
  let totalRoyaltiesInt := parseInt10 totalRoyalties in
  let shares := royaltyShares totalRoyaltiesInt splits [] in
  VObj [("decimals", VNum 6); ("shares", VObj shares)].

(** [decimals] defaults to 3. *)
Definition royaltiesToRoyaltyShares (receiverAddress totalRoyalties : string)
  (decimals : Z) : value :=
  VObj [("decimals", VNum decimals);
        ("shares", VObj [(receiverAddress, VStr totalRoyalties)])].

(** [isIPFS.cid] of the [is-ipfs] package. *)
Variable isIPFS_cid : string -> bool.

Definition normalizeMetadataIpfsUri (metadataUri : string) : string :=
  let newMetadataUri :=
    if negb (JsString.startsWith (JsString.toLowerCase metadataUri) "ipfs://")
       && isIPFS_cid metadataUri
    then "ipfs://" ++ metadataUri
    else metadataUri in
  if JsString.startsWith metadataUri "ipfs://ipfs/"
  then JsString.replace newMetadataUri "ipfs://ipfs/" "ipfs://"
  else newMetadataUri.

(** [makeWorkerUtils] of graphile-worker: it returns a promise, modelled by
    what the promise settles to; [dbConfig.connection] comes from the
    knexfile.  The module variable [workerUtilsPromise] is the state. *)
Variable WorkerUtils : Type.
Variable makeWorkerUtils : value -> World -> result WorkerUtils * World.
Variable dbConfig_connection : value.

Definition getWorkerUtils (workerUtilsPromise : option (result WorkerUtils))
  (w : World) : result WorkerUtils * option (result WorkerUtils) * World :=
  match workerUtilsPromise with
  | None =>
      let (promise, w') :=
        makeWorkerUtils (VObj [("connectionString", dbConfig_connection)]) w in
      (promise, Some promise, w')
  | Some promise => (promise, Some promise, w)
  end.

(** [n] calls of [getWorkerUtils] in a row: what each returned, and the
    state and world left. *)
Fixpoint getWorkerUtils_times (n : nat)
  (workerUtilsPromise : option (result WorkerUtils)) (w : World)
  : list (result WorkerUtils) * option (result WorkerUtils) * World :=
  match n with
  | O => ([], workerUtilsPromise, w)
  | S n' =>
      let '(r, st, w') := getWorkerUtils workerUtilsPromise w in
      let '(rs, st', w'') := getWorkerUtils_times n' st w' in
      (r :: rs, st', w'')
  end.

(** *** handlers/objkt_fulfill_ask_v3 *)

(** [SALE_INTERFACE] of [consts]. *)
Variable SALE_INTERFACE : value.

Definition EVENT_TYPE_OBJKT_FULFILL_ASK_V3 : string := "OBJKT_FULFILL_ASK_V3".

Definition ObjktFulfillAskV3EventSchema : Superstruct.Struct :=
  Superstruct.object
    [("id", Superstruct.string_);
     ("opid", PgBigInt);
     ("timestamp", IsoDateString);
     ("level", PositiveInteger);
     ("fa2_address", ContractAddress);
     ("token_id", Superstruct.string_);
     ("ophash", Superstruct.string_);
     ("ask_id", PgBigInt);
     ("seller_address", TezosAddress);
     ("buyer_address", TezosAddress);
     ("artist_address", Superstruct.optional TezosAddress);
     ("price", PgBigInt)].

Definition ObjktFulfillAskV2Handler_accept : Pattern :=
  [(entrypoint, "fulfill_ask"); (target_address, OBJKT_CONTRACT_MARKETPLACE_V3)].

Definition unsupported_currency : exn := Error "unsupported currency".

Definition ObjktFulfillAskV2Handler_exec (transaction : value) : result value :=
  let askId := get transaction "parameter.value.ask_id" in
  diff <- findDiff (get transaction "diffs") (Some 574013) "asks"
            (ManyActions ["remove_key"; "update_key"]) askId ;;
  let price := to_string (get transaction "amount") in
  let fa2Address := get diff "content.value.token.address" in
  let tokenId := get diff "content.value.token.token_id" in
  let buyerAddress := get transaction "sender.address" in
  let sellerAddress := get diff "content.value.creator" in
  currency <- extractObjktCurrency (get diff "content.value.currency") ;;
  if negb (isTezLikeCurrencyStrict currency) then Throw unsupported_currency else
  id <- createEventId EVENT_TYPE_OBJKT_FULFILL_ASK_V3 transaction 0 ;;
  opid <- member transaction "id" ;;
  ophash <- member transaction "hash" ;;
  level <- member transaction "level" ;;
  timestamp <- member transaction "timestamp" ;;
  let event :=
    VObj [("id", VStr id);
          ("type", VStr EVENT_TYPE_OBJKT_FULFILL_ASK_V3);
          ("implements", SALE_INTERFACE);
          ("opid", VStr (to_string opid));
          ("ophash", ophash);
          ("level", level);
          ("timestamp", timestamp);
          ("price", VStr price);
          ("fa2_address", fa2Address);
          ("token_id", tokenId);
          ("buyer_address", buyerAddress);
          ("seller_address", sellerAddress);
          ("ask_id", askId)] in
  _ <- Superstruct.assert (omit event ["type"; "implements"])
         ObjktFulfillAskV3EventSchema ;;
  Ok event.

(** ** Vocabulary of the statements *)

(** A diff as the indexing service reports it: an object with a [content]. *)
Definition is_diff (d : value) : bool :=
  negb (is_nullish d) && negb (is_nullish (get_prop d "content")).

Definition action_set (action : ActionArg) : list string :=
  match action with ManyActions l => l | OneAction a => [a] end.

(** The test [isMatchingDiff] makes, read off a diff whose content is
    present: the key is tested when it is truthy, as the code does. *)
Definition satisfies (d : value) (bigmapId : option Z) (path : string)
  (action : ActionArg) (key : value) : bool :=
  match bigmapId with
  | None => true
  | Some id => strict_eq (get_prop d "bigmap") (VNum id)
  end
  && strict_eq (get_prop d "path") (VStr path)
  && includes (action_set action) (get_prop d "action")
  && (if truthy key
      then strict_eq (get_prop (get_prop d "content") "key") key
      else true).

(** A diff whose key is [k], for the query [bigmap 7, path "ledger"]. *)
Definition ledger_diff (k : value) : value :=
  VObj [("bigmap", VNum 7); ("path", VStr "ledger"); ("action", VStr "add_key");
        ("content", VObj [("key", k); ("value", VStr "1")])].

(** Keys that are numbers: [SameValueZero] is then equality of the keys. *)
Definition numeric_key (f : value -> value) (x : value) : Prop :=
  exists n, f x = VNum n.

(** The records a call received, page after page. *)
Definition answered (log : list (list (string * value) * result (list value)))
  : list value :=
  flat_map (fun q => match snd q with Ok page => page | Throw _ => [] end) log.

Definition full_page (perPage : Z) (answer : result (list value)) : Prop :=
  exists page, answer = Ok page /\ perPage <= Z.of_nat (List.length page).

Definition short_page (perPage : Z) (answer : result (list value)) : Prop :=
  exists page, answer = Ok page /\ Z.of_nat (List.length page) < perPage.

Definition failed (answer : result (list value)) : Prop :=
  exists e, answer = Throw e.

(** How a paged fetch that started at page [first] with [all] already
    collected went on: every request but the last got a full page; the last
    got a short page, or failed, or was the one that reached [maxPages];
    request [i] asked for page [first + i]; and the outcome is the failure, or
    the records collected, made unique by id. *)
Definition paged (url : string) (filters : list (string * value))
  (perPage maxPages : Z) (select : string) (first : Z) (all : list value)
  (log : list (list (string * value) * result (list value)))
  (out : result (list value)) : Prop :=
  exists init lst,
    log = (init ++ [lst])%list
    /\ Forall (fun q => full_page perPage (snd q)) init
    /\ (short_page perPage (snd lst) \/ failed (snd lst)
        \/ (full_page perPage (snd lst)
            /\ maxPages <= first + Z.of_nat (List.length log)))
    /\ Z.of_nat (List.length log) <= Z.max 1 (maxPages - first)
    /\ map fst log
       = map (fun i => searchParams filters (first + Z.of_nat i) perPage select)
           (seq 0 (List.length log))
    /\ Forall (fun q => exists w, fst (got url (fst q) w) = snd q) log
    /\ match snd lst with
       | Throw e => out = Throw e
       | Ok _ => out = Ok (uniqBy (all ++ answered log) "id")
       end.

(** A source that answers the first three requests of a fetch with pages of
    2000, 2000 and 843 records. *)
Definition three_pages (url : string) (filters : list (string * value))
  (select : string) (w0 : World) (p0 p1 p2 : list value) (w3 : World) : Prop :=
  exists w1 w2,
    got url (searchParams filters 0 2000 select) w0 = (Ok p0, w1)
    /\ got url (searchParams filters 1 2000 select) w1 = (Ok p1, w2)
    /\ got url (searchParams filters 2 2000 select) w2 = (Ok p2, w3)
    /\ Z.of_nat (List.length p0) = 2000
    /\ Z.of_nat (List.length p1) = 2000
    /\ Z.of_nat (List.length p2) = 843.

(** A source whose every page holds exactly [perPage] records. *)
Definition always_full (perPage : Z) : Prop :=
  forall url params w,
    exists page, fst (got url params w) = Ok page
                 /\ Z.of_nat (List.length page) = perPage.

Definition same_id (x y : value) : bool :=
  same_value_zero (property "id" x) (property "id" y).

(** The list [l] is [fetched] made unique by id: a record is kept, in the
    order fetched, exactly when no record fetched before it has its id; and
    when the ids are numbers, no id occurs twice in [l] and every fetched id
    occurs once. *)
Definition unique_by_id (fetched l : list value) : Prop :=
  l = uniqBy fetched "id"
  /\ (forall pre x post,
        fetched = (pre ++ x :: post)%list ->
        exists rest,
          l = (uniqBy pre "id"
               ++ (if existsb (same_id x) pre then [] else [x]) ++ rest)%list)
  /\ (Forall (numeric_key (property "id")) fetched ->
      NoDup (map (property "id") l)
      /\ forall x, In x fetched ->
                   List.length (List.filter (same_id x) l) = 1%nat).

(** The nonce of an operation: [null], or a number. *)
Definition nonce_value (nonce : option Z) : value :=
  match nonce with
  | None => VNull
  | Some n => VNum n
  end.

(** The characters of a decimal numeral. *)
Definition decimal_char (c : ascii) : bool := is_digit c || Ascii.eqb c "-".

(** A text without the separator of [eventIdInput]. *)
Definition no_colon (s : string) : bool := negb (has_char ":"%char s).

(** The search parameters a paged fetch sets itself. *)
Definition reserved_param (k : string) : bool :=
  String.eqb k "offset" || String.eqb k "limit" || String.eqb k "status"
  || String.eqb k "select".

(** What every request of a paged fetch carries: the page window, the
    applied-only status and the field selection, and the caller's filters
    under every other name. *)
Definition well_formed_request (filters : list (string * value))
  (perPage : Z) (select : string) (count : nat) (params : list (string * value))
  : Prop :=
  (exists i, (i < count)%nat
             /\ lookup "offset" params = Some (VNum (Z.of_nat i * perPage)))
  /\ lookup "limit" params = Some (VNum perPage)
  /\ lookup "status" params = Some (VStr "applied")
  /\ lookup "select" params = Some (VStr select)
  /\ forall k, reserved_param k = false -> lookup k params = lookup k filters.

Definition is_array (v : value) : bool :=
  match v with VArr _ => true | _ => false end.

Definition in_bigmap (id : Z) (d : value) : bool :=
  strict_eq (get_prop d "bigmap") (VNum id).

Definition not_an_array : exn := TypeError "diffs.find is not a function".

(** The last split of a list that names an address. *)
Definition last_split (a : string) (splits : list Split) : option Split :=
  List.find (fun split => String.eqb a (address split)) (rev splits).

Definition worker_options : value :=
  VObj [("connectionString", dbConfig_connection)].

(** The diff query as the specification words it (section 4.2): the bigmap
    id is null or equal, the path is equal, the action is in the action set,
    and the key is absent or exactly equal. *)
Definition is_number (v : value) (n : Z) : bool :=
  match v with VNum m => Z.eqb m n | _ => false end.

Definition is_text (v : value) (s : string) : bool :=
  match v with VStr t => String.eqb t s | _ => false end.

Definition query_accepts (bigmapId : option Z) (path : string)
  (actions : list string) (key : option string) (d : value) : bool :=
  match bigmapId with
  | None => true
  | Some id => is_number (get_prop d "bigmap") id
  end
  && is_text (get_prop d "path") path
  && existsb (is_text (get_prop d "action")) actions
  && match key with
     | None => true
     | Some k => is_text (get_prop (get_prop d "content") "key") k
     end.

(** The optional [key] argument of a call. *)
Definition key_argument (key : option string) : value :=
  match key with
  | None => VUndefined
  | Some k => VStr k
  end.

(** * Properties *)

(** ** Strings, [strict_eq] and records *)

Lemma strict_eq_str (v : value) (s : string) :
  strict_eq v (VStr s) = true <-> v = VStr s.
Proof.
  destruct v; simpl; split; intro H; try discriminate.
  - apply String.eqb_eq in H. now subst.
  - injection H as ->. apply String.eqb_refl.
Qed.

Lemma append_cancel_l (p a b : string) : (p ++ a = p ++ b)%string -> a = b.
Proof.
  induction p as [|c p IH]; simpl; intro H; [exact H|].
  injection H as H. auto.
Qed.

Lemma lookup_set_prop_same (k : string) (v : value) (fs : list (string * value)) :
  lookup k (set_prop k v fs) = Some v.
Proof.
  induction fs as [|[k' v'] fs IH]; simpl.
  - now rewrite String.eqb_refl.
  - destruct (String.eqb k k') eqn:E; simpl; rewrite E; [reflexivity|exact IH].
Qed.

Lemma lookup_set_prop_other (k k' : string) (v : value)
  (fs : list (string * value)) :
  String.eqb k k' = false -> lookup k (set_prop k' v fs) = lookup k fs.
Proof.
  intro Hne. induction fs as [|[k0 v0] fs IH]; simpl.
  - now rewrite Hne.
  - destruct (String.eqb k' k0) eqn:E; simpl.
    + apply String.eqb_eq in E. subst k0. now rewrite Hne.
    + destruct (String.eqb k k0); [reflexivity|exact IH].
Qed.

(** ** Event identity *)

(** What [createEventId] returns on a record, by the fields it finds. *)
Lemma createEventId_record (handlerName : string) (fs : list (string * value))
  (idx : Z) :
  createEventId handlerName (VObj fs) idx =
  match lookup "hash" fs, lookup "counter" fs, lookup "nonce" fs with
  | Some hash, Some counter, Some nonce =>
      Ok (metrohash128 (eventIdInput handlerName hash counter nonce idx))
  | _, _, _ => Throw missing_properties
  end.
Proof.
  unfold createEventId, has_property, member, has_key, get_prop. simpl.
  destruct (lookup "hash" fs); simpl; [|reflexivity].
  destruct (lookup "counter" fs); simpl; [|reflexivity].
  destruct (lookup "nonce" fs); simpl; reflexivity.
Qed.

(** C1: [createEventId] is a function of the handler type, the record's
    [hash], [counter] and [nonce] fields and the sub-index only: two records
    that agree on these three fields (present with equal values, or absent
    alike) get the same result, whatever their other fields. *)
Theorem createEventId_depends_only_on_identity_fields :
  forall (handlerName : string) (op1 op2 : list (string * value)) (idx : Z),
    lookup "hash" op1 = lookup "hash" op2 ->
    lookup "counter" op1 = lookup "counter" op2 ->
    lookup "nonce" op1 = lookup "nonce" op2 ->
    createEventId handlerName (VObj op1) idx
    = createEventId handlerName (VObj op2) idx.
Proof.
  intros handlerName op1 op2 idx Hh Hc Hn.
  rewrite !createEventId_record, Hh, Hc, Hn. reflexivity.
Qed.

(** C2: on a record, [createEventId] throws the precondition error exactly
    when one of [hash], [counter], [nonce] is missing; when the three are
    present, a [null] nonce included, it returns an id. *)
Theorem createEventId_throws_iff_field_missing :
  forall (handlerName : string) (op : list (string * value)) (idx : Z),
    (createEventId handlerName (VObj op) idx = Throw missing_properties
     <-> (lookup "hash" op = None \/ lookup "counter" op = None
          \/ lookup "nonce" op = None))
    /\ (forall hash counter nonce,
          lookup "hash" op = Some hash ->
          lookup "counter" op = Some counter ->
          lookup "nonce" op = Some nonce ->
          createEventId handlerName (VObj op) idx
          = Ok (metrohash128 (eventIdInput handlerName hash counter nonce idx)))
    /\ (forall hash counter,
          lookup "hash" op = Some hash ->
          lookup "counter" op = Some counter ->
          lookup "nonce" op = Some VNull ->
          exists id, createEventId handlerName (VObj op) idx = Ok id).
Proof.
  intros handlerName op idx. rewrite createEventId_record.
  repeat split.
  - destruct (lookup "hash" op); [|now left].
    destruct (lookup "counter" op); [|now right; left].
    destruct (lookup "nonce" op); [discriminate|now right; right].
  - intros [H|[H|H]]; rewrite H; try reflexivity.
    + destruct (lookup "hash" op); reflexivity.
    + destruct (lookup "hash" op); [|reflexivity].
      destruct (lookup "counter" op); reflexivity.
  - intros hash counter nonce -> -> ->. reflexivity.
  - intros hash counter -> -> ->. eexists. reflexivity.
Qed.



(** ** Pattern matching *)

(** C3: a transaction matches a pattern exactly when every declared
    attribute resolves, through [PATTERN_TO_PATH], to the expected value; an
    attribute whose path is absent makes the match false (a boolean, never an
    exception); the empty pattern matches every transaction. *)
Theorem transactionMatchesPattern_iff_all_attributes_equal :
  forall (O : value) (P : Pattern),
    (transactionMatchesPattern O P = true
     <-> forall attributeName expectedValue,
           In (attributeName, expectedValue) P ->
           get O (PATTERN_TO_PATH attributeName) = VStr expectedValue)
    /\ (forall attributeName expectedValue,
          In (attributeName, expectedValue) P ->
          get O (PATTERN_TO_PATH attributeName) = VUndefined ->
          transactionMatchesPattern O P = false)
    /\ transactionMatchesPattern O [] = true.
Proof.
  intros O P.
  assert (Hiff : transactionMatchesPattern O P = true
     <-> forall attributeName expectedValue,
           In (attributeName, expectedValue) P ->
           get O (PATTERN_TO_PATH attributeName) = VStr expectedValue).
  { unfold transactionMatchesPattern. rewrite forallb_forall. split.
    - intros H k v Hin. apply strict_eq_str. exact (H (k, v) Hin).
    - intros H [k v] Hin. apply strict_eq_str. simpl. auto. }
  split; [exact Hiff|]. split; [|reflexivity].
  intros k v Hin Habs.
  destruct (transactionMatchesPattern O P) eqn:E; [|reflexivity].
  pose proof (proj1 Hiff eq_refl k v Hin) as E'.
  rewrite Habs in E'. discriminate.
Qed.

(** ** Diff lookup *)

Lemma isMatchingDiff_on_diff (d : value) (bigmapId : option Z) (path : string)
  (action : ActionArg) (key : value) :
  is_diff d = true ->
  isMatchingDiff d bigmapId path action key
  = Ok (satisfies d bigmapId path action key).
Proof.
  unfold is_diff, isMatchingDiff, satisfies, member, action_set.
  intro Hwf. apply andb_true_iff in Hwf as [Hd Hc].
  apply negb_true_iff in Hd. apply negb_true_iff in Hc. rewrite Hd.
  destruct bigmapId as [id|]; simpl.
  - destruct (strict_eq (get_prop d "bigmap") (VNum id)); simpl; [|reflexivity].
    destruct (strict_eq (get_prop d "path") (VStr path)); simpl; [|reflexivity].
    destruct (includes _ (get_prop d "action")); simpl; [|reflexivity].
    destruct (truthy key); [|reflexivity]. rewrite Hc. reflexivity.
  - destruct (strict_eq (get_prop d "path") (VStr path)); simpl; [|reflexivity].
    destruct (includes _ (get_prop d "action")); simpl; [|reflexivity].
    destruct (truthy key); [|reflexivity]. rewrite Hc. reflexivity.
Qed.

(** With a key that is a non-empty string, a matching diff carries that key. *)
Lemma satisfies_nonempty_key (d : value) (bigmapId : option Z) (path : string)
  (action : ActionArg) (k : string) :
  k <> "" ->
  satisfies d bigmapId path action (VStr k) = true ->
  get_prop (get_prop d "content") "key" = VStr k.
Proof.
  intros Hk H. unfold satisfies in H.
  apply andb_true_iff in H as [_ H]. simpl in H.
  destruct (String.eqb k "") eqn:E.
  - apply String.eqb_eq in E. contradiction.
  - simpl in H. now apply strict_eq_str.
Qed.

(** C4, at the empty key: a key argument [""] is supplied, yet the diff of
    bigmap 7, path "ledger", action "add_key" is accepted whatever its own
    key [k] is, and [findDiff] and [filterDiffs] return it. *)
Theorem isMatchingDiff_skips_empty_key :
  forall k : value,
    isMatchingDiff (ledger_diff k) (Some 7) "ledger" (OneAction "add_key")
      (VStr "") = Ok true
    /\ findDiff (VArr [ledger_diff k]) (Some 7) "ledger" (OneAction "add_key")
         (VStr "") = Ok (ledger_diff k)
    /\ filterDiffs (VArr [ledger_diff k]) (Some 7) "ledger"
         (OneAction "add_key") (VStr "") = Ok [ledger_diff k]
    /\ get (ledger_diff k) "content.key" = k.
Proof.
  intro k. repeat split.
Qed.

Lemma array_filter_on_diffs (D : list value) (bigmapId : option Z)
  (path : string) (action : ActionArg) (key : value) :
  forallb is_diff D = true ->
  array_filter (fun d => isMatchingDiff d bigmapId path action key) D
  = Ok (List.filter (fun d => satisfies d bigmapId path action key) D).
Proof.
  induction D as [|d D IH]; simpl; intro Hwf; [reflexivity|].
  apply andb_true_iff in Hwf as [Hd HD].
  rewrite (isMatchingDiff_on_diff _ _ _ _ _ Hd), (IH HD). simpl.
  destruct (satisfies d bigmapId path action key); reflexivity.
Qed.

Lemma array_find_on_diffs (D : list value) (bigmapId : option Z)
  (path : string) (action : ActionArg) (key : value) :
  forallb is_diff D = true ->
  array_find (fun d => isMatchingDiff d bigmapId path action key) D
  = Ok (hd VUndefined
          (List.filter (fun d => satisfies d bigmapId path action key) D)).
Proof.
  induction D as [|d D IH]; simpl; intro Hwf; [reflexivity|].
  apply andb_true_iff in Hwf as [Hd HD].
  rewrite (isMatchingDiff_on_diff _ _ _ _ _ Hd). simpl.
  destruct (satisfies d bigmapId path action key); [reflexivity|].
  exact (IH HD).
Qed.

(** Over a list of diffs, whatever the key, [filterDiffs] returns the diffs
    [isMatchingDiff] accepts, in their order in the list; [findDiff] returns
    the first element of that result, and [undefined] exactly when it is
    empty. *)
Lemma findDiff_is_first_of_filterDiffs :
  forall (D : list value) (bigmapId : option Z) (path : string)
         (action : ActionArg) (key : value),
    forallb is_diff D = true ->
    let matching := List.filter
                      (fun d => satisfies d bigmapId path action key) D in
    filterDiffs (VArr D) bigmapId path action key = Ok matching
    /\ findDiff (VArr D) bigmapId path action key = Ok (hd VUndefined matching)
    /\ (findDiff (VArr D) bigmapId path action key = Ok VUndefined
        <-> matching = [])
    /\ (forall d, In d matching <->
                  In d D /\ isMatchingDiff d bigmapId path action key = Ok true).
Proof.
  intros D bigmapId path action key Hwf matching.
  assert (Hfilter := array_filter_on_diffs D bigmapId path action key Hwf).
  assert (Hfind := array_find_on_diffs D bigmapId path action key Hwf).
  fold matching in Hfilter, Hfind.
  assert (Hin : forall d, In d matching <->
                  In d D /\ isMatchingDiff d bigmapId path action key = Ok true).
  { intro d. unfold matching. rewrite filter_In. split.
    - intros [Hd Hs]. split; [exact Hd|].
      rewrite isMatchingDiff_on_diff, Hs; [reflexivity|].
      rewrite forallb_forall in Hwf. auto.
    - intros [Hd Hs]. split; [exact Hd|].
      rewrite isMatchingDiff_on_diff in Hs; [now injection Hs|].
      rewrite forallb_forall in Hwf. auto. }
  split; [exact Hfilter|]. split; [exact Hfind|]. split; [|exact Hin].
  unfold findDiff. rewrite Hfind. split.
  - intro H. injection H as H.
    destruct matching as [|d rest] eqn:E; [reflexivity|].
    simpl in H. subst d.
    assert (Hd : In VUndefined D) by (apply (Hin VUndefined); now left).
    rewrite forallb_forall in Hwf. apply Hwf in Hd. discriminate.
  - intro H. rewrite H. reflexivity.
Qed.

Lemma strict_eq_is_text (v : value) (s : string) :
  strict_eq v (VStr s) = is_text v s.
Proof. destruct v; reflexivity. Qed.

Lemma strict_eq_is_number (v : value) (n : Z) :
  strict_eq v (VNum n) = is_number v n.
Proof. destruct v; reflexivity. Qed.

Lemma includes_is_text (actions : list string) (v : value) :
  includes actions v = existsb (is_text v) actions.
Proof.
  unfold includes. induction actions as [|a actions IH]; [reflexivity|].
  cbn [existsb]. rewrite IH. f_equal.
  destruct v; try reflexivity. apply String.eqb_sym.
Qed.

(** With the key absent, or a non-empty string, the code's test is the
    specification's query. *)
Lemma satisfies_is_query (d : value) (bigmapId : option Z) (path : string)
  (action : ActionArg) (key : option string) :
  key <> Some "" ->
  satisfies d bigmapId path action (key_argument key)
  = query_accepts bigmapId path (action_set action) key d.
Proof.
  intro Hkey. unfold satisfies, query_accepts.
  rewrite strict_eq_is_text, includes_is_text.
  assert (Hscope :
    match bigmapId with
    | None => true
    | Some id => strict_eq (get_prop d "bigmap") (VNum id)
    end
    = match bigmapId with
      | None => true
      | Some id => is_number (get_prop d "bigmap") id
      end)
    by (destruct bigmapId; [apply strict_eq_is_number|reflexivity]).
  rewrite Hscope. f_equal.
  destruct key as [k|]; simpl; [|reflexivity].
  destruct (String.eqb k "") eqn:E.
  - apply String.eqb_eq in E. subst k. now contradiction Hkey.
  - apply strict_eq_is_text.
Qed.

(** So with such a key [filterDiffs] returns precisely the diffs the query
    accepts, in order, and [findDiff] the first of them. *)
Lemma filterDiffs_by_query (D : list value) (bigmapId : option Z)
  (path : string) (action : ActionArg) (key : option string) :
  forallb is_diff D = true ->
  key <> Some "" ->
  filterDiffs (VArr D) bigmapId path action (key_argument key)
  = Ok (List.filter (query_accepts bigmapId path (action_set action) key) D)
  /\ findDiff (VArr D) bigmapId path action (key_argument key)
     = Ok (hd VUndefined
             (List.filter (query_accepts bigmapId path (action_set action) key)
                D)).
Proof.
  intros Hwf Hkey. unfold filterDiffs, findDiff.
  rewrite array_filter_on_diffs, array_find_on_diffs by exact Hwf.
  rewrite (filter_ext _ (query_accepts bigmapId path (action_set action) key));
    [now split|].
  intro d. now apply satisfies_is_query.
Qed.

(** C5, at the empty key: the query for bigmap 7, path "ledger", action
    "add_key" and key [""] accepts no diff whose key is a non-empty string,
    so the satisfying diffs of a list holding one such diff are none; yet
    [filterDiffs] returns that diff, and [findDiff] finds it. *)
Theorem filterDiffs_returns_a_diff_the_query_refuses :
  forall (c : ascii) (rest : string),
    let d := ledger_diff (VStr (String c rest)) in
    List.filter (query_accepts (Some 7) "ledger" ["add_key"] (Some "")) [d] = []
    /\ filterDiffs (VArr [d]) (Some 7) "ledger" (OneAction "add_key")
         (key_argument (Some "")) = Ok [d]
    /\ findDiff (VArr [d]) (Some 7) "ledger" (OneAction "add_key")
         (key_argument (Some "")) = Ok d.
Proof.
  intros c rest d. repeat split.
Qed.

(** ** [uniqBy] *)

Lemma strict_eq_true_eq (a b : value) : strict_eq a b = true -> a = b.
Proof.
  destruct a, b; simpl; intro H; try discriminate; try reflexivity.
  - apply Bool.eqb_prop in H. now subst.
  - apply Z.eqb_eq in H. now subst.
  - apply String.eqb_eq in H. now subst.
Qed.

Lemma existsb_same_value_zero_In (k : value) (seen : list value) :
  existsb (same_value_zero k) seen = true -> In k seen.
Proof.
  rewrite existsb_exists. intros [s [Hin Heq]].
  apply strict_eq_true_eq in Heq. now subst.
Qed.

Lemma In_existsb_same_value_zero (k : value) (seen : list value) :
  strict_eq k k = true -> In k seen -> existsb (same_value_zero k) seen = true.
Proof.
  intros Hk Hin. apply existsb_exists. exists k. split; assumption.
Qed.

(** Scanning in order, a record is kept exactly when no earlier record, and
    no key seen before the scan, has its key. *)
Lemma baseUniq_snoc (f : value -> value) (xs : list value) :
  forall (seen : list value) (x : value),
    baseUniq f seen (xs ++ [x])%list
    = (baseUniq f seen xs
       ++ (if existsb (same_value_zero (f x)) (seen ++ map f xs)
           then [] else [x]))%list.
Proof.
  induction xs as [|a xs IH]; intros seen x; simpl.
  - rewrite app_nil_r. destruct (existsb _ seen); reflexivity.
  - destruct (existsb (same_value_zero (f a)) seen) eqn:Ea.
    + rewrite IH. f_equal.
      rewrite !existsb_app. simpl.
      destruct (same_value_zero (f x) (f a)) eqn:Exa; [|reflexivity].
      apply strict_eq_true_eq in Exa. rewrite Exa, Ea. reflexivity.
    + simpl. rewrite IH. do 2 f_equal.
      rewrite <- app_assoc. reflexivity.
Qed.

Lemma baseUniq_In (f : value -> value) (xs : list value) :
  forall (seen : list value) (y : value),
    In y (baseUniq f seen xs) ->
    In y xs /\ existsb (same_value_zero (f y)) seen = false.
Proof.
  induction xs as [|a xs IH]; intros seen y; simpl; [intros []|].
  destruct (existsb (same_value_zero (f a)) seen) eqn:Ea.
  - intro H. apply IH in H as [H1 H2]. split; [now right|exact H2].
  - intros [<-|H].
    + split; [now left|exact Ea].
    + apply IH in H as [H1 H2]. split; [now right|].
      rewrite existsb_app in H2. now apply orb_false_iff in H2.
Qed.

Lemma numeric_key_prim (f : value -> value) (x : value) :
  numeric_key f x -> strict_eq (f x) (f x) = true.
Proof. intros [n ->]. simpl. apply Z.eqb_refl. Qed.

Lemma baseUniq_NoDup (f : value -> value) (xs : list value) :
  Forall (numeric_key f) xs ->
  forall seen, NoDup (map f (baseUniq f seen xs)).
Proof.
  induction 1 as [|a xs Ha Hxs IH]; intro seen; simpl; [constructor|].
  destruct (existsb (same_value_zero (f a)) seen) eqn:Ea; [apply IH|].
  simpl. constructor; [|apply IH].
  rewrite in_map_iff. intros [y [Hy Hin]].
  apply baseUniq_In in Hin as [_ Hex].
  rewrite existsb_app, Hy in Hex. simpl in Hex.
  unfold same_value_zero in Hex at 2.
  rewrite (numeric_key_prim _ _ Ha) in Hex.
  rewrite orb_true_r in Hex. discriminate.
Qed.

Lemma baseUniq_covers (f : value -> value) (xs : list value) :
  forall (seen : list value) (x : value),
    In x xs -> numeric_key f x ->
    In (f x) seen \/ In (f x) (map f (baseUniq f seen xs)).
Proof.
  induction xs as [|a xs IH]; intros seen x; simpl; [intros []|].
  intros [->|Hin] Hx.
  - destruct (existsb (same_value_zero (f x)) seen) eqn:Ea.
    + left. now apply existsb_same_value_zero_In.
    + right. now left.
  - destruct (existsb (same_value_zero (f a)) seen) eqn:Ea.
    + now apply IH.
    + destruct (IH (seen ++ [f a])%list x Hin Hx) as [H|H].
      * apply in_app_or in H as [H|[H|[]]]; [now left|].
        right. left. exact H.
      * right. now right.
Qed.

(** A list whose keys are pairwise different, none seen before, is kept whole. *)
Lemma baseUniq_distinct (f : value -> value) (xs : list value) :
  forall seen,
    NoDup (map f xs) ->
    (forall x, In x xs -> ~ In (f x) seen) ->
    baseUniq f seen xs = xs.
Proof.
  induction xs as [|a xs IH]; intros seen Hnd Hseen; simpl; [reflexivity|].
  inversion Hnd as [|k ks Hk Hks]; subst.
  destruct (existsb (same_value_zero (f a)) seen) eqn:Ea.
  - apply existsb_same_value_zero_In in Ea.
    exfalso. apply (Hseen a); [now left|exact Ea].
  - f_equal. apply IH; [exact Hks|].
    intros x Hx Hin. apply in_app_or in Hin as [Hin|[Hin|[]]].
    + apply (Hseen x); [now right|exact Hin].
    + apply Hk. rewrite Hin. now apply in_map.
Qed.

(** With distinct keys, exactly one element carries a key that occurs. *)
Lemma one_record_per_key (f : value -> value) (k : value) (l : list value) :
  NoDup (map f l) -> strict_eq k k = true -> In k (map f l) ->
  List.length (List.filter (fun y => same_value_zero k (f y)) l) = 1%nat.
Proof.
  induction l as [|a l IH]; simpl; intros Hnd Hk Hin; [contradiction|].
  inversion Hnd as [|x xs Hx Hxs]; subst.
  destruct (same_value_zero k (f a)) eqn:Ea.
  - apply strict_eq_true_eq in Ea. subst k. simpl. f_equal.
    destruct (List.filter _ l) as [|y ys] eqn:Ef; [reflexivity|].
    assert (Hy : In y (List.filter (fun y => same_value_zero (f a) (f y)) l))
      by (rewrite Ef; now left).
    apply filter_In in Hy as [Hy1 Hy2].
    apply strict_eq_true_eq in Hy2.
    exfalso. apply Hx. rewrite Hy2. now apply in_map.
  - destruct Hin as [Hin|Hin].
    + subst k. unfold same_value_zero in Ea. rewrite Hk in Ea. discriminate.
    + now apply IH.
Qed.

Lemma baseUniq_app (f : value -> value) (xs ys : list value) :
  forall seen,
    baseUniq f seen (xs ++ ys)%list
    = (baseUniq f seen xs
       ++ baseUniq f (seen ++ map f (baseUniq f seen xs)) ys)%list.
Proof.
  induction xs as [|a xs IH]; intro seen; simpl.
  - now rewrite app_nil_r.
  - destruct (existsb (same_value_zero (f a)) seen); [apply IH|].
    simpl. rewrite IH, <- app_assoc. reflexivity.
Qed.

Lemma existsb_on_map {A B : Type} (p : B -> bool) (g : A -> B) (l : list A) :
  existsb p (map g l) = existsb (fun a => p (g a)) l.
Proof. induction l as [|a l IH]; simpl; [reflexivity|now rewrite IH]. Qed.

Lemma uniqBy_unique_by_id (fetched : list value) :
  unique_by_id fetched (uniqBy fetched "id").
Proof.
  split; [reflexivity|]. split.
  - intros pre x post ->. unfold uniqBy.
    change (pre ++ x :: post)%list with (pre ++ [x] ++ post)%list.
    rewrite app_assoc, baseUniq_app, baseUniq_snoc. simpl.
    rewrite <- app_assoc. eexists. f_equal. f_equal.
    unfold same_id. rewrite existsb_on_map. reflexivity.
  - intro Hnum. unfold uniqBy.
    pose proof (baseUniq_NoDup _ _ Hnum []) as Hnd.
    split; [exact Hnd|]. intros x Hx. unfold same_id.
    apply one_record_per_key; [exact Hnd| |].
    + apply numeric_key_prim. rewrite Forall_forall in Hnum. auto.
    + rewrite Forall_forall in Hnum.
      destruct (baseUniq_covers (property "id") fetched [] x Hx (Hnum x Hx))
        as [[]|H]; exact H.
Qed.

(** ** The paging loop *)

Section FetchLoop.

Variable url : string.
Variable filters : list (string * value).
Variable perPage maxPages : Z.
Variable select : string.

Lemma paged_single (page : Z) (all : list value) (w : World)
  (answer : result (list value)) :
  fst (got url (searchParams filters page perPage select) w) = answer ->
  (short_page perPage answer \/ failed answer
   \/ (full_page perPage answer /\ maxPages <= page + 1)) ->
  paged url filters perPage maxPages select page all
    [(searchParams filters page perPage select, answer)]
    match answer with
    | Throw e => Throw e
    | Ok pg => Ok (uniqBy (all ++ pg) "id")
    end.
Proof.
  intros Hgot Hlast.
  exists [], (searchParams filters page perPage select, answer).
  repeat split.
  - constructor.
  - simpl. exact Hlast.
  - simpl. lia.
  - simpl. now rewrite Z.add_0_r.
  - constructor; [|constructor]. now exists w.
  - simpl. destruct answer; [|reflexivity].
    unfold answered. simpl. now rewrite app_nil_r.
Qed.

Lemma paged_next (page : Z) (all pg : list value) (w : World)
  (log : list (list (string * value) * result (list value)))
  (out : result (list value)) :
  fst (got url (searchParams filters page perPage select) w) = Ok pg ->
  perPage <= Z.of_nat (List.length pg) ->
  page + 1 < maxPages ->
  paged url filters perPage maxPages select (page + 1) (all ++ pg) log out ->
  paged url filters perPage maxPages select page all
    ((searchParams filters page perPage select, Ok pg) :: log) out.
Proof.
  intros Hgot Hfull Hlt (init & lst & Hlog & Hinit & Hlast & Hlen & Hreq & Hans & Hout).
  exists ((searchParams filters page perPage select, Ok pg) :: init), lst.
  repeat split.
  - simpl. now rewrite Hlog.
  - constructor; [|exact Hinit]. simpl. now exists pg.
  - destruct Hlast as [H|[H|[H1 H2]]]; [now left|now right; left|].
    right; right. split; [exact H1|]. simpl List.length. lia.
  - simpl List.length. lia.
  - simpl. rewrite Z.add_0_r. f_equal.
    rewrite Hreq, <- seq_shift, map_map.
    apply map_ext. intro i. f_equal. lia.
  - constructor; [|exact Hans]. now exists w.
  - destruct (snd lst); [|exact Hout].
    rewrite Hout. unfold answered. simpl. now rewrite app_assoc.
Qed.

Lemma fetchLoop_S (fuel : nat) (page : Z) (all : list value)
  (log : list (list (string * value) * result (list value))) (w : World) :
  fetchLoop (S fuel) url filters perPage maxPages select page all log w
  = let params := searchParams filters page perPage select in
    match got url params w with
    | (Throw e, w') =>
        Some (mkFetch (Throw e) (log ++ [(params, Throw e)])%list w')
    | (Ok pg, w') =>
        if Z.of_nat (List.length pg) <? perPage
        then Some (mkFetch (Ok (uniqBy (all ++ pg) "id"))
                     (log ++ [(params, Ok pg)])%list w')
        else if page + 1 <? maxPages
             then fetchLoop fuel url filters perPage maxPages select (page + 1)
                    (all ++ pg)%list (log ++ [(params, Ok pg)])%list w'
             else Some (mkFetch (Ok (uniqBy (all ++ pg) "id"))
                          (log ++ [(params, Ok pg)])%list w')
    end.
Proof. reflexivity. Qed.

(** With fuel for the pages that remain, the loop returns, and it went as
    [paged] says. *)
Lemma fetchLoop_paged (fuel : nat) :
  forall (page : Z) (all : list value)
         (log : list (list (string * value) * result (list value)))
         (w : World),
    maxPages - page <= Z.of_nat (S fuel) ->
    exists out new w',
      fetchLoop (S fuel) url filters perPage maxPages select page all log w
      = Some (mkFetch out (log ++ new)%list w')
      /\ paged url filters perPage maxPages select page all new out.
Proof.
  induction fuel as [|fuel IH]; intros page all log w Hfuel.
  - simpl.
    destruct (got url (searchParams filters page perPage select) w)
      as [[pg|e] w'] eqn:Hgot.
    + destruct (Z.of_nat (List.length pg) <? perPage) eqn:Hshort.
      * do 3 eexists. split; [reflexivity|].
        apply (paged_single page all w (Ok pg)); [now rewrite Hgot|].
        left. exists pg. split; [reflexivity|]. now apply Z.ltb_lt.
      * destruct (page + 1 <? maxPages) eqn:Hcap.
        -- apply Z.ltb_lt in Hcap. lia.
        -- do 3 eexists. split; [reflexivity|].
           apply (paged_single page all w (Ok pg)); [now rewrite Hgot|].
           right; right. apply Z.ltb_ge in Hshort, Hcap.
           split; [now exists pg|lia].
    + do 3 eexists. split; [reflexivity|].
      apply (paged_single page all w (Throw e)); [now rewrite Hgot|].
      right; left. now exists e.
  - rewrite fetchLoop_S. cbv zeta.
    destruct (got url (searchParams filters page perPage select) w)
      as [[pg|e] w'] eqn:Hgot.
    + destruct (Z.of_nat (List.length pg) <? perPage) eqn:Hshort.
      * do 3 eexists. split; [reflexivity|].
        apply (paged_single page all w (Ok pg)); [now rewrite Hgot|].
        left. exists pg. split; [reflexivity|]. now apply Z.ltb_lt.
      * destruct (page + 1 <? maxPages) eqn:Hcap.
        -- apply Z.ltb_lt in Hcap. apply Z.ltb_ge in Hshort.
           destruct (IH (page + 1) (all ++ pg)%list
                       (log ++ [(searchParams filters page perPage select, Ok pg)])%list
                       w') as (out & new & w'' & Hrun & Hpaged); [lia|].
           exists out, ((searchParams filters page perPage select, Ok pg) :: new), w''.
           split.
           ++ rewrite Hrun, <- app_assoc. reflexivity.
           ++ apply (paged_next page all pg w); try assumption.
              now rewrite Hgot.
        -- do 3 eexists. split; [reflexivity|].
           apply (paged_single page all w (Ok pg)); [now rewrite Hgot|].
           right; right. apply Z.ltb_ge in Hshort, Hcap.
           split; [now exists pg|lia].
    + do 3 eexists. split; [reflexivity|].
      apply (paged_single page all w (Throw e)); [now rewrite Hgot|].
      right; left. now exists e.
Qed.

End FetchLoop.

Lemma paged_from_start (url : string) (filters : list (string * value))
  (perPage maxPages : Z) (select : string) (w : World) :
  exists r,
    fetchLoop (S (Z.to_nat maxPages)) url filters perPage maxPages select
      0 [] [] w = Some r
    /\ paged url filters perPage maxPages select 0 [] (requests r) (outcome r)
    /\ 1 <= Z.of_nat (List.length (requests r)) <= Z.max 1 maxPages.
Proof.
  destruct (fetchLoop_paged url filters perPage maxPages select
              (Z.to_nat maxPages) 0 [] [] w) as (out & new & w' & Hrun & Hp);
    [lia|].
  eexists. split; [exact Hrun|]. simpl. split; [exact Hp|].
  destruct Hp as (init & lst & Hlog & _ & _ & Hlen & _).
  split; [|lia]. rewrite Hlog, length_app. simpl. lia.
Qed.

Lemma paged_always_full (url : string) (filters : list (string * value))
  (perPage maxPages : Z) (select : string)
  (log : list (list (string * value) * result (list value)))
  (out : result (list value)) :
  always_full perPage ->
  paged url filters perPage maxPages select 0 [] log out ->
  Z.of_nat (List.length log) = Z.max 1 maxPages.
Proof.
  intros Hfull (init & lst & Hlog & _ & Hlast & Hlen & _ & Hans & _).
  assert (Hlst : exists pg, snd lst = Ok pg /\ Z.of_nat (List.length pg) = perPage).
  { rewrite Forall_forall in Hans.
    destruct (Hans lst) as [w0 Hw0].
    - rewrite Hlog. apply in_or_app. right. now left.
    - destruct (Hfull url (fst lst) w0) as (pg & Hpg & Hn).
      exists pg. split; [congruence|exact Hn]. }
  destruct Hlst as (pg & Hpg & Hn).
  assert (1 <= Z.of_nat (List.length log))
    by (rewrite Hlog, length_app; simpl; lia).
  destruct Hlast as [(pg' & H1 & H2)|[(e & H1)|[_ H2]]].
  - rewrite Hpg in H1. injection H1 as <-. lia.
  - rewrite Hpg in H1. discriminate.
  - lia.
Qed.

Lemma fetchLoop_three_pages (url : string) (filters : list (string * value))
  (maxPages : Z) (select : string) (w0 w3 : World) (p0 p1 p2 : list value) :
  3 <= maxPages ->
  three_pages url filters select w0 p0 p1 p2 w3 ->
  exists r,
    fetchLoop (S (Z.to_nat maxPages)) url filters 2000 maxPages select
      0 [] [] w0 = Some r
    /\ List.length (requests r) = 3%nat
    /\ map snd (requests r) = [Ok p0; Ok p1; Ok p2]
    /\ outcome r = Ok (uniqBy (p0 ++ p1 ++ p2) "id").
Proof.
  intros Hmax (w1 & w2 & H0 & H1 & H2 & L0 & L1 & L2).
  destruct (Z.to_nat maxPages) as [|[|[|n]]] eqn:E; try lia.
  rewrite fetchLoop_S. cbv zeta. rewrite H0, L0.
  change (2000 <? 2000) with false. cbv iota.
  replace (0 + 1 <? maxPages) with true by (symmetry; apply Z.ltb_lt; lia).
  rewrite fetchLoop_S. cbv zeta. change (0 + 1) with 1. rewrite H1, L1.
  change (2000 <? 2000) with false. cbv iota.
  replace (1 + 1 <? maxPages) with true by (symmetry; apply Z.ltb_lt; lia).
  rewrite fetchLoop_S. cbv zeta. change (1 + 1) with 2. rewrite H2, L2.
  change (843 <? 2000) with true. cbv iota.
  eexists. split; [reflexivity|]. simpl.
  rewrite <- app_assoc. repeat split.
Qed.

(** C6, as the loop runs: [getTransactions] and [getOriginations] return
    after at least one and at most [max 1 maxPages] sequential requests,
    request [i] asking for page [i]; every request before the last got a full
    page, and the last got a short page, or failed, or reached [maxPages].
    A source whose pages are all full is asked [max 1 maxPages] times, which
    is [maxPages] when [maxPages >= 1]; pages of 2000, 2000 and 843 records
    with [perPage = 2000] and [maxPages >= 3] take exactly 3 requests. *)
Theorem paged_fetch_stops_at_short_page_or_cap :
  (forall filters perPage maxPages select w,
      (exists r,
          getTransactions filters perPage maxPages select w = Some r
          /\ paged transactions_url filters perPage maxPages select 0 []
               (requests r) (outcome r)
          /\ 1 <= Z.of_nat (List.length (requests r)) <= Z.max 1 maxPages
          /\ (always_full perPage ->
              Z.of_nat (List.length (requests r)) = Z.max 1 maxPages))
      /\ (exists r,
             getOriginations filters perPage maxPages w = Some r
             /\ paged originations_url filters perPage maxPages
                  originations_select 0 [] (requests r) (outcome r)
             /\ 1 <= Z.of_nat (List.length (requests r)) <= Z.max 1 maxPages
             /\ (always_full perPage ->
                 Z.of_nat (List.length (requests r)) = Z.max 1 maxPages)))
  /\ (forall filters maxPages select w p0 p1 p2 w3,
         3 <= maxPages ->
         three_pages transactions_url filters select w p0 p1 p2 w3 ->
         exists r,
           getTransactions filters 2000 maxPages select w = Some r
           /\ List.length (requests r) = 3%nat)
  /\ (forall filters maxPages w p0 p1 p2 w3,
         3 <= maxPages ->
         three_pages originations_url filters originations_select w p0 p1 p2 w3 ->
         exists r,
           getOriginations filters 2000 maxPages w = Some r
           /\ List.length (requests r) = 3%nat).
Proof.
  split; [|split].
  - intros filters perPage maxPages select w. split.
    + destruct (paged_from_start transactions_url filters perPage maxPages
                  select w) as (r & Hr & Hp & Hlen).
      exists r. repeat split; try assumption; try apply Hlen.
      intro Hfull. exact (paged_always_full _ _ _ _ _ _ _ Hfull Hp).
    + destruct (paged_from_start originations_url filters perPage maxPages
                  originations_select w) as (r & Hr & Hp & Hlen).
      exists r. repeat split; try assumption; try apply Hlen.
      intro Hfull. exact (paged_always_full _ _ _ _ _ _ _ Hfull Hp).
  - intros filters maxPages select w p0 p1 p2 w3 Hmax H3.
    destruct (fetchLoop_three_pages _ _ _ _ _ _ _ _ _ Hmax H3)
      as (r & Hr & Hn & _).
    exists r. split; assumption.
  - intros filters maxPages w p0 p1 p2 w3 Hmax H3.
    destruct (fetchLoop_three_pages _ _ _ _ _ _ _ _ _ Hmax H3)
      as (r & Hr & Hn & _).
    exists r. split; assumption.
Qed.

Lemma paged_outcome (url : string) (filters : list (string * value))
  (perPage maxPages : Z) (select : string)
  (log : list (list (string * value) * result (list value)))
  (out : result (list value)) (l : list value) :
  paged url filters perPage maxPages select 0 [] log out ->
  out = Ok l -> unique_by_id (answered log) l.
Proof.
  intros (init & lst & _ & _ & _ & _ & _ & _ & Hout) ->.
  destruct (snd lst); [|discriminate].
  injection Hout as ->. apply uniqBy_unique_by_id.
Qed.

Lemma uniqBy_distinct (l : list value) :
  NoDup (map (property "id") l) -> uniqBy l "id" = l.
Proof.
  intro Hnd. unfold uniqBy. apply baseUniq_distinct; [exact Hnd|].
  intros x _ [].
Qed.

(** C7: the list a fetch returns is the records received, page after page,
    made unique by id: a record is kept, in the order received, exactly when
    no record received before it has its id, so with numeric ids no id occurs
    twice and every received id occurs once (in particular the id of a
    record that ends page 1 and opens page 2); and pages of 2000, 2000 and
    843 records with pairwise different ids are returned whole, 4843
    records. *)
Theorem fetched_list_is_unique_by_id :
  (forall filters perPage maxPages select w,
      (exists r,
          getTransactions filters perPage maxPages select w = Some r
          /\ forall l, outcome r = Ok l ->
                       unique_by_id (answered (requests r)) l)
      /\ (exists r,
             getOriginations filters perPage maxPages w = Some r
             /\ forall l, outcome r = Ok l ->
                          unique_by_id (answered (requests r)) l))
  /\ (forall (page1 page2 l : list value) (x : value),
         Forall (numeric_key (property "id")) ((page1 ++ [x]) ++ x :: page2) ->
         unique_by_id ((page1 ++ [x]) ++ x :: page2) l ->
         List.length (List.filter (same_id x) l) = 1%nat)
  /\ (forall filters maxPages select w p0 p1 p2 w3,
         3 <= maxPages ->
         three_pages transactions_url filters select w p0 p1 p2 w3 ->
         NoDup (map (property "id") (p0 ++ p1 ++ p2)) ->
         exists r,
           getTransactions filters 2000 maxPages select w = Some r
           /\ outcome r = Ok (p0 ++ p1 ++ p2)%list
           /\ Z.of_nat (List.length (p0 ++ p1 ++ p2)) = 4843)
  /\ (forall filters maxPages w p0 p1 p2 w3,
         3 <= maxPages ->
         three_pages originations_url filters originations_select w p0 p1 p2 w3 ->
         NoDup (map (property "id") (p0 ++ p1 ++ p2)) ->
         exists r,
           getOriginations filters 2000 maxPages w = Some r
           /\ outcome r = Ok (p0 ++ p1 ++ p2)%list
           /\ Z.of_nat (List.length (p0 ++ p1 ++ p2)) = 4843).
Proof.
  assert (Hsize : forall url filters select w p0 p1 p2 w3,
             three_pages url filters select w p0 p1 p2 w3 ->
             Z.of_nat (List.length (p0 ++ p1 ++ p2)) = 4843).
  { intros url filters select w p0 p1 p2 w3 (w1 & w2 & _ & _ & _ & L0 & L1 & L2).
    rewrite !length_app, !Nat2Z.inj_add, L0, L1, L2. reflexivity. }
  split; [|split; [|split]].
  - intros filters perPage maxPages select w. split.
    + destruct (paged_from_start transactions_url filters perPage maxPages
                  select w) as (r & Hr & Hp & _).
      exists r. split; [exact Hr|]. intros l Hl.
      exact (paged_outcome _ _ _ _ _ _ _ _ Hp Hl).
    + destruct (paged_from_start originations_url filters perPage maxPages
                  originations_select w) as (r & Hr & Hp & _).
      exists r. split; [exact Hr|]. intros l Hl.
      exact (paged_outcome _ _ _ _ _ _ _ _ Hp Hl).
  - intros page1 page2 l x Hnum (_ & _ & Hu).
    apply (Hu Hnum). apply in_or_app. right. now left.
  - intros filters maxPages select w p0 p1 p2 w3 Hmax H3 Hnd.
    destruct (fetchLoop_three_pages _ _ _ _ _ _ _ _ _ Hmax H3)
      as (r & Hr & _ & _ & Hout).
    exists r. split; [exact Hr|]. split; [|exact (Hsize _ _ _ _ _ _ _ _ H3)].
    now rewrite Hout, uniqBy_distinct.
  - intros filters maxPages w p0 p1 p2 w3 Hmax H3 Hnd.
    destruct (fetchLoop_three_pages _ _ _ _ _ _ _ _ _ Hmax H3)
      as (r & Hr & _ & _ & Hout).
    exists r. split; [exact Hr|]. split; [|exact (Hsize _ _ _ _ _ _ _ _ H3)].
    now rewrite Hout, uniqBy_distinct.
Qed.

(** ** Handlers *)

Lemma get_prop_not_nullish (v : value) (key : string) :
  get_prop v key <> VUndefined -> is_nullish v = false.
Proof. destruct v; simpl; intro H; try reflexivity; now contradiction H. Qed.

Lemma isMatchingDiff_keyed (d : value) (id : Z) (path action k : string) :
  get_prop d "bigmap" = VNum id ->
  get_prop d "path" = VStr path ->
  get_prop d "action" = VStr action ->
  get_prop (get_prop d "content") "key" = VStr k ->
  isMatchingDiff d (Some id) path (OneAction action) (VStr k) = Ok true.
Proof.
  intros Hb Hp Ha Hk.
  rewrite isMatchingDiff_on_diff.
  - unfold satisfies. rewrite Hb, Hp, Ha, Hk. simpl.
    rewrite Z.eqb_refl, !String.eqb_refl. simpl.
    destruct (String.eqb k ""); reflexivity.
  - unfold is_diff.
    rewrite (get_prop_not_nullish d "bigmap") by (rewrite Hb; discriminate).
    rewrite (get_prop_not_nullish _ "key") by (rewrite Hk; discriminate).
    reflexivity.
Qed.

Lemma array_find_first (pred : value -> result bool) (pre post : list value)
  (d : value) :
  Forall (fun x => pred x = Ok false) pre ->
  pred d = Ok true ->
  array_find pred (pre ++ d :: post) = Ok d.
Proof.
  intros Hpre Hd. induction Hpre as [|x pre Hx _ IH]; simpl.
  - now rewrite Hd.
  - now rewrite Hx.
Qed.

(** C8: a transaction with entrypoint [retract_ask] and target the
    marketplace address, whose diffs hold a [remove_key] diff [d] of bigmap
    574013 at path "asks" with the transaction's parameter value [k] as key
    (the diffs before it being diffs the query for [k] does not accept:
    other bigmaps, paths, actions or keys), and whose fields and diff content
    pass the validators, matches the handler's pattern and is turned into one
    event whose [ask_id] is [k] and whose [id] is the digest [createEventId]
    computes from the transaction.  [PgBigInt] refuses the empty string. *)
Theorem retract_ask_produces_event :
  forall (op : list (string * value)) (k h : string) (counter nonce d : value)
         (pre post : list value),
    let transaction := VObj op in
    get transaction "parameter.entrypoint" = VStr "retract_ask" ->
    get transaction "target.address" = VStr OBJKT_CONTRACT_MARKETPLACE_V3 ->
    get transaction "parameter.value" = VStr k ->
    get transaction "diffs" = VArr (pre ++ d :: post) ->
    Forall (fun x => is_diff x = true
                     /\ query_accepts (Some 574013) "asks" ["remove_key"]
                          (Some k) x = false) pre ->
    get_prop d "bigmap" = VNum 574013 ->
    get_prop d "path" = VStr "asks" ->
    get_prop d "action" = VStr "remove_key" ->
    get_prop (get_prop d "content") "key" = VStr k ->
    lookup "hash" op = Some (VStr h) ->
    lookup "counter" op = Some counter ->
    lookup "nonce" op = Some nonce ->
    PgBigInt (VStr (to_string (get_prop transaction "id"))) = true ->
    IsoDateString (get_prop transaction "timestamp") = true ->
    PositiveInteger (get_prop transaction "level") = true ->
    ContractAddress (get d "content.value.token.address") = true ->
    Superstruct.string_ (get d "content.value.token.token_id") = true ->
    TezosAddress (get d "content.value.creator") = true ->
    PgBigInt (VStr k) = true ->
    PgBigInt (VStr "") = false ->
    let id := metrohash128
                (eventIdInput EVENT_TYPE_OBJKT_RETRACT_ASK_V3 (VStr h) counter
                   nonce 0) in
    transactionMatchesPattern transaction ObjktRetractAskV2Handler_accept = true
    /\ createEventId EVENT_TYPE_OBJKT_RETRACT_ASK_V3 transaction 0 = Ok id
    /\ exists event,
         ObjktRetractAskV2Handler_exec transaction = Ok event
         /\ get_prop event "ask_id" = VStr k
         /\ get_prop event "id" = VStr id
         /\ get_prop event "type" = VStr EVENT_TYPE_OBJKT_RETRACT_ASK_V3.
Proof.
  intros op k h counter nonce d pre post transaction Hentry Htarget Hvalue
    Hdiffs Hpre Hbigmap Hpath Haction Hkey Hhash Hcounter Hnonce Vopid Vtime
    Vlevel Vfa2 Vtoken Vseller Vask Vempty id.
  assert (Hk : Some k <> Some "")
    by (intro E; injection E as ->; rewrite Vask in Vempty; discriminate).
  assert (Hid : createEventId EVENT_TYPE_OBJKT_RETRACT_ASK_V3 transaction 0
                = Ok id).
  { unfold transaction. rewrite createEventId_record, Hhash, Hcounter, Hnonce.
    reflexivity. }
  split; [|split; [exact Hid|]].
  - unfold transactionMatchesPattern, ObjktRetractAskV2Handler_accept. simpl.
    rewrite Hentry, Htarget. simpl. now rewrite !String.eqb_refl.
  - unfold ObjktRetractAskV2Handler_exec.
    rewrite Hvalue, Hdiffs. unfold findDiff.
    rewrite (array_find_first _ pre post d).
    + unfold bind at 1. rewrite Hid. unfold bind at 1.
      assert (Hh : get_prop transaction "hash" = VStr h)
        by (unfold transaction, get_prop; now rewrite Hhash).
      unfold member. change (is_nullish transaction) with false. cbv iota.
      unfold bind at 1 2 3 4. rewrite Hh.
      eexists. split.
      * unfold Superstruct.assert, ObjktRetractAskV3EventSchema,
          Superstruct.object, omit.
        cbn -[to_string get eventIdInput].
        unfold transaction, get_prop in Vopid, Vtime, Vlevel.
        rewrite Vopid, Vtime, Vlevel, Vfa2, Vtoken, Vseller, Vask.
        reflexivity.
      * repeat split.
    + eapply Forall_impl; [|exact Hpre].
      intros x [Hx1 Hx2].
      rewrite isMatchingDiff_on_diff by exact Hx1.
      change (VStr k) with (key_argument (Some k)).
      rewrite (satisfies_is_query x (Some 574013) "asks"
                 (OneAction "remove_key") (Some k) Hk).
      simpl action_set. now rewrite Hx2.
    + now apply isMatchingDiff_keyed.
Qed.

(** C10: whatever the transaction, as long as its [id] is a number, the
    handler of 8BID_24X24_MONOCHROME_CANCEL_SWAP throws: it hands that number
    to [createEventId], whose field check fails on it (when nothing threw
    before), so no event is returned. *)
Theorem eightbid_cancel_swap_exec_always_throws :
  forall (transaction : value) (n : Z),
    get_prop transaction "id" = VNum n ->
    (exists e, EightbidCancelSwap8x8ColorEvent_exec transaction = Throw e)
    /\ (exists e,
          createEventId EVENT_TYPE_8BID_24X24_MONOCHROME_CANCEL_SWAP
            (VNum n) 0 = Throw e).
Proof.
  intros transaction n Hid. split; [|eexists; reflexivity].
  unfold EightbidCancelSwap8x8ColorEvent_exec, member.
  rewrite (get_prop_not_nullish transaction "id") by (rewrite Hid; discriminate).
  unfold bind at 1.
  destruct (findDiff _ _ _ _ _) as [diff|e]; [|now exists e].
  unfold bind at 1 2. rewrite Hid. eexists. reflexivity.
Qed.

(** * Further properties *)

(** ** The text hashed by [createEventId] *)

Lemma colon_split (a a' r r' : string) :
  no_colon a = true -> no_colon a' = true ->
  (a ++ String ":" r = a' ++ String ":" r')%string ->
  a = a' /\ r = r'.
Proof.
  unfold no_colon. revert a'.
  induction a as [|c a IH]; intros [|c' a']; simpl; intros Ha Ha' H.
  - injection H as H. now split.
  - injection H as Hc _. subst c'. simpl in Ha'. discriminate.
  - injection H as Hc _. subst c. simpl in Ha. discriminate.
  - injection H as Hc H. subst c'.
    apply negb_true_iff, orb_false_iff in Ha as [_ Ha].
    apply negb_true_iff, orb_false_iff in Ha' as [_ Ha'].
    destruct (IH a') as [-> ->]; try assumption;
      try (apply negb_true_iff; assumption).
    now split.
Qed.

Lemma string_of_uint_decimal (u : Decimal.uint) :
  all_chars decimal_char (NilEmpty.string_of_uint u) = true.
Proof. induction u; simpl; try assumption; reflexivity. Qed.

Lemma number_to_string_decimal (n : Z) :
  all_chars decimal_char (number_to_string n) = true.
Proof.
  unfold number_to_string.
  destruct n as [|p|p]; simpl; try reflexivity.
  - destruct (Pos.to_uint p); simpl; try reflexivity;
      apply string_of_uint_decimal.
  - destruct (Pos.to_uint p); simpl; try reflexivity;
      apply string_of_uint_decimal.
Qed.

Lemma all_chars_no_colon (s : string) :
  all_chars decimal_char s = true -> no_colon s = true.
Proof.
  unfold no_colon. induction s as [|c s IH]; [reflexivity|].
  cbn [all_chars has_char]. intro H. apply andb_true_iff in H as [Hc Hs].
  apply negb_true_iff, orb_false_iff. split.
  - destruct (Ascii.eqb ":" c) eqn:E; [|reflexivity].
    apply Ascii.eqb_eq in E. subst c. discriminate.
  - apply negb_true_iff. now apply IH.
Qed.

Lemma number_to_string_inj (n m : Z) :
  number_to_string n = number_to_string m -> n = m.
Proof.
  unfold number_to_string. intro H.
  assert (Hnz : forall z, NilZero.int_of_string (NilZero.string_of_int (Z.to_int z))
                          = Some (Z.to_int z)).
  { intro z. apply NilZero.isi; destruct z; simpl; try discriminate;
      intro E; injection E as E; now apply Unsigned.to_uint_nonnil in E. }
  pose proof (Hnz n) as Hn. rewrite H, Hnz in Hn. injection Hn as Hn.
  rewrite <- (DecimalZ.of_to n), <- (DecimalZ.of_to m). now f_equal.
Qed.

Lemma nonce_text_no_colon (nonce : option Z) :
  no_colon (if negb (strict_eq (nonce_value nonce) VNull)
            then to_string (nonce_value nonce) else "unset") = true.
Proof.
  destruct nonce as [n|]; simpl; [|reflexivity].
  apply all_chars_no_colon, number_to_string_decimal.
Qed.

Lemma nonce_text_inj (nonce nonce' : option Z) :
  (if negb (strict_eq (nonce_value nonce) VNull)
   then to_string (nonce_value nonce) else "unset")
  = (if negb (strict_eq (nonce_value nonce') VNull)
     then to_string (nonce_value nonce') else "unset") ->
  nonce = nonce'.
Proof.
  destruct nonce as [n|], nonce' as [m|]; simpl; intro H.
  - f_equal. now apply number_to_string_inj.
  - pose proof (number_to_string_decimal n) as Hd. rewrite H in Hd. discriminate.
  - pose proof (number_to_string_decimal m) as Hd. rewrite <- H in Hd. discriminate.
  - reflexivity.
Qed.

Lemma eventIdInput_inj (h h' hash hash' : string) (counter counter' : Z)
  (nonce nonce' : option Z) (idx idx' : Z) :
  no_colon h = true -> no_colon h' = true ->
  no_colon hash = true -> no_colon hash' = true ->
  eventIdInput h (VStr hash) (VNum counter) (nonce_value nonce) idx
  = eventIdInput h' (VStr hash') (VNum counter') (nonce_value nonce') idx' ->
  h = h' /\ hash = hash' /\ counter = counter' /\ nonce = nonce' /\ idx = idx'.
Proof.
  intros Hh Hh' Hhash Hhash' H. unfold eventIdInput in H.
  cbn [to_string] in H.
  change (":" ++ ?x)%string with (String ":" x) in H.
  apply colon_split in H as [-> H]; try assumption.
  change (":" ++ ?x)%string with (String ":" x) in H.
  apply colon_split in H as [-> H]; try assumption.
  change (":" ++ ?x)%string with (String ":" x) in H.
  apply colon_split in H as [Hc H];
    try (apply all_chars_no_colon, number_to_string_decimal).
  change (":" ++ ?x)%string with (String ":" x) in H.
  apply colon_split in H as [Hn H]; try apply nonce_text_no_colon.
  apply number_to_string_inj in Hc, H. apply nonce_text_inj in Hn.
  now subst.
Qed.

(** X1: two events that differ in handler type, operation hash, counter, nonce
    or sub-index are hashed from different texts, as long as the handler type
    and the hash hold no colon; and [createEventId] returns the digest of
    that text. *)
Theorem different_events_are_hashed_from_different_texts :
  forall (h h' hash hash' : string) (counter counter' : Z)
         (nonce nonce' : option Z) (idx idx' : Z),
    no_colon h = true -> no_colon h' = true ->
    no_colon hash = true -> no_colon hash' = true ->
    (h <> h' \/ hash <> hash' \/ counter <> counter' \/ nonce <> nonce'
     \/ idx <> idx') ->
    String.eqb
      (eventIdInput h (VStr hash) (VNum counter) (nonce_value nonce) idx)
      (eventIdInput h' (VStr hash') (VNum counter') (nonce_value nonce') idx')
    = false
    /\ createEventId h
         (VObj [("hash", VStr hash); ("counter", VNum counter);
                ("nonce", nonce_value nonce)]) idx
       = Ok (metrohash128
               (eventIdInput h (VStr hash) (VNum counter) (nonce_value nonce)
                  idx)).
Proof.
  intros h h' hash hash' counter counter' nonce nonce' idx idx'
    Hh Hh' Hhash Hhash' Hdiff.
  split; [|now rewrite createEventId_record].
  destruct (String.eqb _ _) eqn:E; [|reflexivity].
  apply String.eqb_eq in E.
  apply eventIdInput_inj in E as (E1 & E2 & E3 & E4 & E5); try assumption.
  destruct Hdiff as [H|[H|[H|[H|H]]]]; contradiction.
Qed.

Lemma string_app_assoc (a b c : string) :
  ((a ++ b) ++ c = a ++ (b ++ c))%string.
Proof. induction a as [|x a IH]; simpl; [reflexivity|now rewrite IH]. Qed.

(** X2: the separator is not escaped: a colon may move from the handler name to
    the hash, and the two calls return the same id, whatever the digest. *)
Theorem createEventId_colon_moves_between_fields :
  forall (a b c : string) (others : list (string * value)) (idx : Z),
    createEventId (a ++ ":" ++ b) (VObj (("hash", VStr c) :: others)) idx
    = createEventId a (VObj (("hash", VStr (b ++ ":" ++ c)) :: others)) idx.
Proof.
  intros a b c others idx. rewrite !createEventId_record. simpl.
  destruct (lookup "counter" others); [|reflexivity].
  destruct (lookup "nonce" others); [|reflexivity].
  unfold eventIdInput. simpl.
  rewrite !string_app_assoc. reflexivity.
Qed.

(** ** The requests of a paged fetch *)

Lemma searchParams_well_formed (filters : list (string * value))
  (page perPage : Z) (select : string) :
  lookup "offset" (searchParams filters page perPage select)
  = Some (VNum (page * perPage))
  /\ lookup "limit" (searchParams filters page perPage select)
     = Some (VNum perPage)
  /\ lookup "status" (searchParams filters page perPage select)
     = Some (VStr "applied")
  /\ lookup "select" (searchParams filters page perPage select)
     = Some (VStr select)
  /\ forall k, reserved_param k = false ->
               lookup k (searchParams filters page perPage select)
               = lookup k filters.
Proof.
  unfold searchParams. repeat split.
  - rewrite !lookup_set_prop_other by reflexivity. apply lookup_set_prop_same.
  - rewrite !lookup_set_prop_other by reflexivity. apply lookup_set_prop_same.
  - rewrite lookup_set_prop_other by reflexivity. apply lookup_set_prop_same.
  - apply lookup_set_prop_same.
  - intros k Hk. unfold reserved_param in Hk.
    apply orb_false_iff in Hk as [Hk Hselect].
    apply orb_false_iff in Hk as [Hk Hstatus].
    apply orb_false_iff in Hk as [Hoffset Hlimit].
    now rewrite !lookup_set_prop_other.
Qed.

Lemma paged_requests_well_formed (url : string)
  (filters : list (string * value)) (perPage maxPages : Z) (select : string)
  (log : list (list (string * value) * result (list value)))
  (out : result (list value)) :
  paged url filters perPage maxPages select 0 [] log out ->
  forall params answer,
    In (params, answer) log ->
    well_formed_request filters perPage select (List.length log) params.
Proof.
  intros (init & lst & _ & _ & _ & _ & Hreq & _) params answer Hin.
  assert (Hp : In params (map fst log))
    by (apply in_map_iff; exists (params, answer); now split).
  rewrite Hreq in Hp. apply in_map_iff in Hp as (i & <- & Hi).
  apply in_seq in Hi.
  destruct (searchParams_well_formed filters (0 + Z.of_nat i) perPage select)
    as (Ho & Hl & Hs & Hsel & Hk).
  repeat split; try assumption.
  exists i. split; [lia|]. now rewrite Ho.
Qed.

(** X3: every request [getTransactions] and [getOriginations] issue asks for
    [limit = perPage] records at an [offset] that is a multiple of [perPage],
    with [status = applied] and the field selection; a filter of the caller
    named [offset], [limit], [status] or [select] is overridden, and every
    other filter is sent as given. *)
Theorem paged_requests_override_reserved_filters :
  forall filters perPage maxPages select w,
    (exists r,
        getTransactions filters perPage maxPages select w = Some r
        /\ forall params answer,
             In (params, answer) (requests r) ->
             well_formed_request filters perPage select
               (List.length (requests r)) params)
    /\ (exists r,
           getOriginations filters perPage maxPages w = Some r
           /\ forall params answer,
                In (params, answer) (requests r) ->
                well_formed_request filters perPage originations_select
                  (List.length (requests r)) params).
Proof.
  intros filters perPage maxPages select w. split.
  - destruct (paged_from_start transactions_url filters perPage maxPages
                select w) as (r & Hr & Hp & _).
    exists r. split; [exact Hr|].
    exact (paged_requests_well_formed _ _ _ _ _ _ _ Hp).
  - destruct (paged_from_start originations_url filters perPage maxPages
                originations_select w) as (r & Hr & Hp & _).
    exists r. split; [exact Hr|].
    exact (paged_requests_well_formed _ _ _ _ _ _ _ Hp).
Qed.

Lemma baseUniq_length (f : value -> value) (xs : list value) :
  forall seen, (List.length (baseUniq f seen xs) <= List.length xs)%nat.
Proof.
  induction xs as [|a xs IH]; intro seen; simpl; [lia|].
  destruct (existsb (same_value_zero (f a)) seen); simpl.
  - specialize (IH seen). lia.
  - specialize (IH (seen ++ [f a])%list). lia.
Qed.

(** X4: a fetch that succeeds returns only records it received, in a list no
    longer than what it received; and a fetch fails exactly when its last
    request failed, with that error. *)
Theorem fetch_returns_received_records_or_last_failure :
  forall filters perPage maxPages select w,
    exists r,
      getTransactions filters perPage maxPages select w = Some r
      /\ (forall l, outcome r = Ok l ->
                    (forall x, In x l -> In x (answered (requests r)))
                    /\ (List.length l <= List.length (answered (requests r)))%nat)
      /\ (forall e, outcome r = Throw e
                    <-> exists params, last (requests r) (params, Ok [])
                                       = (params, Throw e)).
Proof.
  intros filters perPage maxPages select w.
  destruct (paged_from_start transactions_url filters perPage maxPages
              select w) as (r & Hr & Hp & _).
  exists r. split; [exact Hr|]. split.
  - intros l Hl.
    destruct (paged_outcome _ _ _ _ _ _ _ _ Hp Hl) as (-> & _). split.
    + intros x Hx. unfold uniqBy in Hx. now apply baseUniq_In in Hx.
    + apply baseUniq_length.
  - intro e. destruct Hp as (init & lst & Hlog & _ & _ & _ & _ & _ & Hout).
    rewrite Hlog. destruct lst as [params answer]. simpl in Hout.
    split.
    + intro He. destruct answer as [pg|e'].
      * rewrite Hout in He. discriminate.
      * exists params. rewrite last_last. congruence.
    + intros [params' H]. rewrite last_last in H.
      injection H as _ ->. exact Hout.
Qed.

(** ** Diff lookup, beyond well-formed lists *)

Lemma array_filter_throws (pred : value -> result bool) (xs : list value) :
  (exists x e, In x xs /\ pred x = Throw e) ->
  exists e, array_filter pred xs = Throw e.
Proof.
  induction xs as [|a xs IH]; intros (x & e & Hin & Hx); [destruct Hin|].
  simpl. destruct (pred a) as [b|e'] eqn:Ea; [|now exists e'].
  simpl. destruct Hin as [->|Hin]; [congruence|].
  destruct IH as [e' He']; [now exists x, e|].
  rewrite He'. now exists e'.
Qed.

Lemma isMatchingDiff_nullish (x : value) (bigmapId : option Z) (path : string)
  (action : ActionArg) (key : value) :
  is_nullish x = true ->
  exists e, isMatchingDiff x bigmapId path action key = Throw e.
Proof.
  intro Hx. unfold isMatchingDiff, member. rewrite Hx.
  destruct bigmapId; simpl; eexists; reflexivity.
Qed.

(** X5: [findDiff] stops at the first diff that matches, so what follows it is
    never looked at; [filterDiffs] looks at every diff, and throws when one
    after the match is [null] or [undefined]. *)
Theorem findDiff_stops_at_first_match_filterDiffs_does_not :
  forall (pre post : list value) (d x : value) (bigmapId : option Z)
         (path : string) (action : ActionArg) (key : value),
    Forall (fun y => isMatchingDiff y bigmapId path action key = Ok false) pre ->
    isMatchingDiff d bigmapId path action key = Ok true ->
    In x post -> is_nullish x = true ->
    findDiff (VArr (pre ++ d :: post)) bigmapId path action key = Ok d
    /\ exists e,
         filterDiffs (VArr (pre ++ d :: post)) bigmapId path action key
         = Throw e.
Proof.
  intros pre post d x bigmapId path action key Hpre Hd Hin Hx. split.
  - unfold findDiff. now apply array_find_first.
  - unfold filterDiffs. apply array_filter_throws.
    destruct (isMatchingDiff_nullish x bigmapId path action key Hx) as [e He].
    exists x, e. split; [|exact He].
    apply in_or_app. right. now right.
Qed.

Lemma satisfies_scoped (d : value) (id : Z) (path : string)
  (action : ActionArg) (key : value) :
  satisfies d (Some id) path action key
  = satisfies d None path action key && in_bigmap id d.
Proof.
  unfold satisfies, in_bigmap.
  destruct (strict_eq (get_prop d "bigmap") (VNum id)); simpl.
  - now rewrite andb_true_r.
  - now rewrite andb_false_r.
Qed.

Lemma filter_twice {A : Type} (p q : A -> bool) (l : list A) :
  List.filter q (List.filter p l) = List.filter (fun x => p x && q x) l.
Proof.
  induction l as [|a l IH]; simpl; [reflexivity|].
  destruct (p a); simpl; [|exact IH].
  destruct (q a); now rewrite IH.
Qed.

(** X6: a [null] bigmap id leaves the query unscoped: over a list of diffs, the
    diffs [filterDiffs] returns for a bigmap id are those it returns for
    [null] that belong to that bigmap, in the same order. *)
Theorem filterDiffs_null_bigmap_is_unscoped :
  forall (D : list value) (id : Z) (path : string) (action : ActionArg)
         (key : value),
    forallb is_diff D = true ->
    exists unscoped,
      filterDiffs (VArr D) None path action key = Ok unscoped
      /\ filterDiffs (VArr D) (Some id) path action key
         = Ok (List.filter (in_bigmap id) unscoped).
Proof.
  intros D id path action key Hwf. eexists. unfold filterDiffs.
  rewrite !array_filter_on_diffs by exact Hwf.
  split; [reflexivity|]. f_equal. rewrite filter_twice.
  apply filter_ext. intro d. apply satisfies_scoped.
Qed.

(** ** Handlers, when things are missing *)


(** X7: a transaction whose [diffs] are absent, or anything but an array, makes
    both objkt handlers throw a [TypeError]: neither a rejection of the
    handler nor a schema error. *)
Theorem objkt_handlers_throw_without_diffs :
  forall transaction : value,
    is_array (get transaction "diffs") = false ->
    ObjktRetractAskV2Handler_exec transaction = Throw not_an_array
    /\ ObjktFulfillAskV2Handler_exec transaction = Throw not_an_array.
Proof.
  intros transaction H.
  unfold ObjktRetractAskV2Handler_exec, ObjktFulfillAskV2Handler_exec, findDiff.
  destruct (get transaction "diffs"); try discriminate; split; reflexivity.
Qed.




(** ** Currencies *)

Lemma isTezLikeCurrencyStrict_iff (currency : value) :
  isTezLikeCurrencyStrict currency = true
  <-> currency = VStr "tez" \/ currency = VStr "otez".
Proof.
  unfold isTezLikeCurrencyStrict. rewrite orb_true_iff, !strict_eq_str.
  reflexivity.
Qed.

(** X9: the two currency tests differ exactly on the falsy values: the lax one
    accepts what the strict one accepts and, besides, [undefined], [null],
    [false], [0] and the empty string.  So for a currency object with neither
    a [tez] nor an [fa12] key, for which [extractObjktCurrency] returns
    [null], the lax test says tez-like and the strict test does not. *)
Theorem lax_currency_test_accepts_unknown_currency :
  (forall currency,
      isTezLikeCurrency currency
      = isTezLikeCurrencyStrict currency || negb (truthy currency))
  /\ (forall fields,
         lookup "tez" fields = None -> lookup "fa12" fields = None ->
         extractObjktCurrency (VObj fields) = Ok VNull
         /\ isTezLikeCurrency VNull = true
         /\ isTezLikeCurrencyStrict VNull = false).
Proof.
  split.
  - intro currency. unfold isTezLikeCurrency, isTezLikeCurrencyStrict.
    destruct (truthy currency) eqn:Ht; simpl.
    + now rewrite orb_false_r.
    + now rewrite orb_true_r.
  - intros fields Htez Hfa12.
    unfold extractObjktCurrency, has_property, has_key.
    rewrite Htez. simpl. rewrite Hfa12. repeat split.
Qed.

(** What [extractObjktCurrency] returns on an object, by the keys it has: a
    [tez] key wins over an [fa12] key; an [fa12] address is translated by
    the table when the table has a truthy entry for it, and returned as it is
    otherwise.  On anything that is not an object it throws. *)
Lemma extractObjktCurrency_by_keys :
  (forall fields,
      extractObjktCurrency (VObj fields)
      = match lookup "tez" fields, lookup "fa12" fields with
        | Some _, _ => Ok (VStr "tez")
        | None, Some fa12 =>
            match lookup (to_string fa12) CURRENCY_MAPPINGS with
            | Some mapped => if truthy mapped then Ok mapped else Ok fa12
            | None => Ok fa12
            end
        | None, None => Ok VNull
        end)
  /\ (forall currency,
         match currency with VObj _ | VArr _ => False | _ => True end ->
         exists msg, extractObjktCurrency currency = Throw (TypeError msg)).
Proof.
  split.
  - intro fields. unfold extractObjktCurrency, has_property, has_key, member.
    simpl. destruct (lookup "tez" fields); simpl; [reflexivity|].
    destruct (lookup "fa12" fields) as [fa12|]; simpl; [|reflexivity].
    destruct (lookup (to_string fa12) CURRENCY_MAPPINGS) as [mapped|];
      reflexivity.
  - intros currency H. destruct currency; try contradiction;
      eexists; reflexivity.
Qed.

(** ** The fulfill-ask handler *)

(** X10: what the fulfill-ask handler throws: a [TypeError] when no diff matches
    (the currency is then read off [undefined]), and the "unsupported
    currency" error when the diff it found has a currency that is neither
    "tez" nor "otez". *)
Theorem fulfill_ask_rejections :
  forall (transaction : value),
    (findDiff (get transaction "diffs") (Some 574013) "asks"
       (ManyActions ["remove_key"; "update_key"])
       (get transaction "parameter.value.ask_id") = Ok VUndefined ->
     exists msg,
       ObjktFulfillAskV2Handler_exec transaction = Throw (TypeError msg))
    /\ (forall d currency,
           findDiff (get transaction "diffs") (Some 574013) "asks"
             (ManyActions ["remove_key"; "update_key"])
             (get transaction "parameter.value.ask_id") = Ok d ->
           extractObjktCurrency (get d "content.value.currency") = Ok currency ->
           currency <> VStr "tez" -> currency <> VStr "otez" ->
           ObjktFulfillAskV2Handler_exec transaction
           = Throw unsupported_currency).
Proof.
  intro transaction. unfold ObjktFulfillAskV2Handler_exec. split.
  - intros ->. eexists. reflexivity.
  - intros d currency -> Hc Htez Hotez. unfold bind at 1. rewrite Hc.
    unfold bind at 1.
    destruct (isTezLikeCurrencyStrict currency) eqn:E; [|reflexivity].
    apply isTezLikeCurrencyStrict_iff in E as [E|E]; contradiction.
Qed.


(** X12: no transaction is accepted by both objkt handlers: their patterns ask
    for different entrypoints. *)
Theorem objkt_handlers_accept_disjoint_transactions :
  forall transaction : value,
    transactionMatchesPattern transaction ObjktRetractAskV2Handler_accept
    && transactionMatchesPattern transaction ObjktFulfillAskV2Handler_accept
    = false.
Proof.
  intro transaction.
  unfold transactionMatchesPattern, ObjktRetractAskV2Handler_accept,
    ObjktFulfillAskV2Handler_accept.
  cbn [forallb fst snd PATTERN_TO_PATH].
  destruct (strict_eq (get transaction "parameter.entrypoint")
              (VStr "retract_ask")) eqn:E; [|reflexivity].
  apply strict_eq_str in E. rewrite E.
  change (strict_eq (VStr "retract_ask") (VStr "fulfill_ask")) with false.
  cbn [andb]. apply andb_false_r.
Qed.

(** ** Task names *)

(** X13: prefixing keeps task names apart: two different names give two
    different task names, whatever the environment, and a task name always
    ends with the name it was made from. *)
Theorem getTaskName_keeps_names_apart :
  forall (env : list (string * value)) (name1 name2 : string),
    String.eqb name1 name2 = false ->
    String.eqb (getTaskName env name1) (getTaskName env name2) = false
    /\ exists prefix, getTaskName env name1 = (prefix ++ name1)%string.
Proof.
  intros env name1 name2 Hne. unfold getTaskName.
  destruct (truthy (get_prop (VObj env) "TASK_NAME_PREFIX")).
  - split.
    + apply not_true_is_false. intro E.
      apply String.eqb_eq in E. apply append_cancel_l in E.
      injection E as E. subst. now rewrite String.eqb_refl in Hne.
    + exists (to_string (get_prop (VObj env) "TASK_NAME_PREFIX") ++ "_")%string.
      now rewrite string_app_assoc.
  - split; [exact Hne|]. now exists ""%string.
Qed.

(** ** Royalty shares *)

Lemma find_snoc {A : Type} (p : A -> bool) (l : list A) (x : A) :
  List.find p (l ++ [x])
  = match List.find p l with
    | Some y => Some y
    | None => if p x then Some x else None
    end.
Proof.
  induction l as [|a l IH]; simpl; [reflexivity|].
  destruct (p a); [reflexivity|exact IH].
Qed.

Lemma lookup_set_prop (k k' : string) (v : value) (fs : list (string * value)) :
  lookup k (set_prop k' v fs)
  = if String.eqb k k' then Some v else lookup k fs.
Proof.
  destruct (String.eqb k k') eqn:E.
  - apply String.eqb_eq in E. subst. apply lookup_set_prop_same.
  - now apply lookup_set_prop_other.
Qed.

Lemma set_prop_keys (k : string) (v : value) (fs : list (string * value)) :
  map fst (set_prop k v fs)
  = if isSome (lookup k fs) then map fst fs else (map fst fs ++ [k])%list.
Proof.
  induction fs as [|[k' v'] fs IH]; simpl; [reflexivity|].
  destruct (String.eqb k k') eqn:E; simpl; [reflexivity|].
  rewrite IH. destruct (isSome (lookup k fs)); reflexivity.
Qed.

Lemma lookup_None_not_key (k : string) (fs : list (string * value)) :
  lookup k fs = None -> ~ In k (map fst fs).
Proof.
  induction fs as [|[k' v'] fs IH]; simpl; intros H Hin; [exact Hin|].
  destruct Hin as [Hk|Hk].
  - subst k'. now rewrite String.eqb_refl in H.
  - destruct (String.eqb k k'); [discriminate|]. now apply IH.
Qed.

Lemma set_prop_NoDup (k : string) (v : value) (fs : list (string * value)) :
  NoDup (map fst fs) -> NoDup (map fst (set_prop k v fs)).
Proof.
  intro Hnd. rewrite set_prop_keys.
  destruct (lookup k fs) eqn:E; simpl; [exact Hnd|].
  apply NoDup_app; [exact Hnd|repeat constructor; intros []|].
  intros x Hx [<-|[]]. now apply (lookup_None_not_key _ _ E).
Qed.

Lemma royaltyShares_lookup (total : Number) (splits : list Split) :
  forall (memo : list (string * value)) (a : string),
    String.eqb a "__proto__" = false ->
    lookup a (royaltyShares total splits memo)
    = match last_split a splits with
      | Some split =>
          Some (VStr (numberToString (multiply total (parseInt10 (pct split)))))
      | None => lookup a memo
      end.
Proof.
  unfold royaltyShares, last_split.
  induction splits as [|sp splits IH]; intros memo a Ha; simpl; [reflexivity|].
  rewrite IH by exact Ha. rewrite find_snoc.
  destruct (List.find _ (rev splits)); [reflexivity|].
  unfold assign_text.
  destruct (String.eqb (address sp) "__proto__") eqn:Ep.
  - apply String.eqb_eq in Ep.
    destruct (String.eqb a (address sp)) eqn:Ea; [|reflexivity].
    apply String.eqb_eq in Ea. rewrite Ea, Ep in Ha. discriminate.
  - rewrite lookup_set_prop.
    destruct (String.eqb a (address sp)); reflexivity.
Qed.

Lemma royaltyShares_no_proto (total : Number) (splits : list Split) :
  forall memo,
    lookup "__proto__" memo = None ->
    lookup "__proto__" (royaltyShares total splits memo) = None.
Proof.
  unfold royaltyShares.
  induction splits as [|sp splits IH]; intros memo Hm; simpl; [exact Hm|].
  apply IH. unfold assign_text.
  destruct (String.eqb (address sp) "__proto__") eqn:Ep; [exact Hm|].
  rewrite lookup_set_prop_other; [exact Hm|].
  now rewrite String.eqb_sym.
Qed.

Lemma royaltyShares_NoDup (total : Number) (splits : list Split) :
  forall memo, NoDup (map fst memo) ->
               NoDup (map fst (royaltyShares total splits memo)).
Proof.
  unfold royaltyShares.
  induction splits as [|sp splits IH]; intros memo Hnd; simpl; [exact Hnd|].
  apply IH. unfold assign_text.
  destruct (String.eqb (address sp) "__proto__"); [exact Hnd|].
  now apply set_prop_NoDup.
Qed.

(** X14: the shares [splitsToRoyaltyShares] returns have one entry per address
    named by a split, "__proto__" excepted (assigning to that key creates no
    entry), and no other; when several splits name one address, the entry is
    computed from the last of them alone (the percentages are not added
    up); and the decimals are 6. *)
Theorem splitsToRoyaltyShares_last_split_wins :
  forall (splits : list Split) (totalRoyalties : string),
    exists shares,
      splitsToRoyaltyShares splits totalRoyalties
      = VObj [("decimals", VNum 6); ("shares", VObj shares)]
      /\ NoDup (map fst shares)
      /\ forall a,
           lookup a shares
           = if String.eqb a "__proto__" then None
             else match last_split a splits with
                  | Some split =>
                      Some (VStr (numberToString
                                    (multiply (parseInt10 totalRoyalties)
                                       (parseInt10 (pct split)))))
                  | None => None
                  end.
Proof.
  intros splits totalRoyalties. eexists. split; [reflexivity|]. split.
  - apply royaltyShares_NoDup. constructor.
  - intro a. destruct (String.eqb a "__proto__") eqn:Ea.
    + apply String.eqb_eq in Ea. subst a. now apply royaltyShares_no_proto.
    + now rewrite royaltyShares_lookup.
Qed.

(** ** Metadata URIs *)

Lemma startsWith_split (s prefix : string) :
  JsString.startsWith s prefix = true ->
  s = (prefix ++ JsString.drop (String.length prefix) s)%string.
Proof.
  revert s. induction prefix as [|p prefix IH]; intros s H; [reflexivity|].
  destruct s as [|c s]; [discriminate|]. simpl in H.
  apply andb_true_iff in H as [Hc Hs]. apply Ascii.eqb_eq in Hc. subst c.
  simpl. f_equal. now apply IH.
Qed.

Lemma replace_at_start (s pattern replacement : string) :
  JsString.startsWith s pattern = true ->
  JsString.replace s pattern replacement
  = (replacement ++ JsString.drop (String.length pattern) s)%string.
Proof. intro H. destruct s; cbn [JsString.replace]; now rewrite H. Qed.

Lemma scheme_in_front (rest : string) :
  JsString.startsWith (JsString.toLowerCase ("ipfs://" ++ rest)) "ipfs://"
  = true.
Proof. reflexivity. Qed.

(** X15: what [normalizeMetadataIpfsUri] returns, case by case: a URI that starts
    with "ipfs://ipfs/" loses the "ipfs/" after the scheme; otherwise a CID
    that does not start with "ipfs://" in any letter case gets the scheme
    in front; anything else is returned as it is.  The two rewrites never
    apply together, and a URI that is a CID or has the scheme comes out with
    the scheme. *)
Theorem normalizeMetadataIpfsUri_cases :
  forall metadataUri : string,
    normalizeMetadataIpfsUri metadataUri
    = (if JsString.startsWith metadataUri "ipfs://ipfs/"
       then "ipfs://" ++ JsString.drop 12 metadataUri
       else if negb (JsString.startsWith (JsString.toLowerCase metadataUri)
                       "ipfs://")
               && isIPFS_cid metadataUri
            then "ipfs://" ++ metadataUri
            else metadataUri)%string
    /\ (JsString.startsWith (JsString.toLowerCase metadataUri) "ipfs://"
        || isIPFS_cid metadataUri = true ->
        JsString.startsWith
          (JsString.toLowerCase (normalizeMetadataIpfsUri metadataUri))
          "ipfs://" = true).
Proof.
  intro u.
  assert (Hcases :
    normalizeMetadataIpfsUri u
    = (if JsString.startsWith u "ipfs://ipfs/"
       then "ipfs://" ++ JsString.drop 12 u
       else if negb (JsString.startsWith (JsString.toLowerCase u) "ipfs://")
               && isIPFS_cid u
            then "ipfs://" ++ u
            else u)%string).
  { unfold normalizeMetadataIpfsUri.
    destruct (JsString.startsWith u "ipfs://ipfs/") eqn:Hstrip; [|reflexivity].
    assert (Hlow : JsString.startsWith (JsString.toLowerCase u) "ipfs://" = true).
    { rewrite (startsWith_split _ _ Hstrip). reflexivity. }
    rewrite Hlow. cbn [negb andb].
    now rewrite replace_at_start. }
  split; [exact Hcases|].
  intro H. rewrite Hcases.
  destruct (JsString.startsWith u "ipfs://ipfs/"); [apply scheme_in_front|].
  destruct (JsString.startsWith (JsString.toLowerCase u) "ipfs://") eqn:Hlow.
  - exact Hlow.
  - simpl in H. rewrite H. apply scheme_in_front.
Qed.

(** ** The worker utilities *)

Lemma getWorkerUtils_times_cached (n : nat) (promise : result WorkerUtils)
  (w : World) :
  getWorkerUtils_times n (Some promise) w = (repeat promise n, Some promise, w).
Proof.
  induction n as [|n IH]; simpl; [reflexivity|]. now rewrite IH.
Qed.

(** X16: however many times [getWorkerUtils] is called, [makeWorkerUtils] runs
    once, on the first call: every call returns what that one promise settled
    to, a failure included (it is not tried again), and the world is left as
    the first call left it. *)
Theorem getWorkerUtils_makes_worker_utils_once :
  forall (n : nat) (w : World),
    getWorkerUtils_times (S n) None w
    = (repeat (fst (makeWorkerUtils worker_options w)) (S n),
       Some (fst (makeWorkerUtils worker_options w)),
       snd (makeWorkerUtils worker_options w)).
Proof.
  intros n w. unfold worker_options. simpl.
  destruct (makeWorkerUtils _ w) as [promise w'].
  now rewrite getWorkerUtils_times_cached.
Qed.

End Indexer.

(** * Instances on the sample data *)

Arguments outcome {World} f.
Arguments requests {World} f.

(** Two records with the same identity fields, in another order and among
    other fields, get the same id. *)
Lemma createEventId_depends_only_on_identity_fields_witness :
  createEventId Sample.digest "T"
    (VObj [("hash", VStr "op"); ("counter", VNum 7); ("nonce", VNull);
           ("level", VNum 1)]) 3
  = createEventId Sample.digest "T"
      (VObj [("id", VNum 9); ("nonce", VNull); ("counter", VNum 7);
             ("hash", VStr "op")]) 3.
Proof.
  apply (createEventId_depends_only_on_identity_fields Sample.digest);
    reflexivity.
Defined.

(** The sample service, asked for pages of 2000 with 4843 records to give,
    is asked three times. *)
Lemma paged_fetch_stops_at_short_page_or_cap_witness :
  exists r,
    getTransactions unit (Sample.service 4843) "https://api.tzkt.io/v1" []
      2000 20 default_select tt = Some r
    /\ List.length (requests r) = 3%nat.
Proof.
  apply (proj1 (proj2 (paged_fetch_stops_at_short_page_or_cap unit
                         (Sample.service 4843) "https://api.tzkt.io/v1"))
           [] 20 default_select tt
           (map Sample.record (seq 0 2000))
           (map Sample.record (seq 2000 2000))
           (map Sample.record (seq 4000 843)) tt).
  - lia.
  - exists tt, tt. repeat split; vm_compute; reflexivity.
Defined.

(** With [maxPages = 0] and a service whose pages are always full, one
    request is issued, not none. *)
Lemma getTransactions_requests_once_when_maxPages_is_zero :
  exists r,
    getTransactions unit Sample.two_records "https://api.tzkt.io/v1" []
      2 0 default_select tt = Some r
    /\ List.length (requests r) = 1%nat
    /\ always_full unit Sample.two_records 2.
Proof.
  eexists. split; [reflexivity|]. split; [reflexivity|].
  intros url params w. eexists. split; reflexivity.
Qed.

Lemma sample_records_distinct (ids : list nat) :
  NoDup ids -> NoDup (map (property "id") (map Sample.record ids)).
Proof.
  intro Hnd. rewrite map_map. simpl.
  apply Injective_map_NoDup; [|exact Hnd].
  intros a b H. injection H as H. now apply Nat2Z.inj.
Qed.

(** The sample service with 4843 records returns them all, and a service
    whose second page repeats a record returns it once. *)
Lemma fetched_list_is_unique_by_id_witness :
  (exists r,
      getTransactions unit (Sample.service 4843) "https://api.tzkt.io/v1" []
        2000 20 default_select tt = Some r
      /\ outcome r = Ok (map Sample.record (seq 0 2000)
                         ++ map Sample.record (seq 2000 2000)
                         ++ map Sample.record (seq 4000 843))%list
      /\ Z.of_nat (List.length (map Sample.record (seq 0 2000)
                                ++ map Sample.record (seq 2000 2000)
                                ++ map Sample.record (seq 4000 843))) = 4843)
  /\ (exists r,
         getTransactions unit Sample.overlapping "https://api.tzkt.io/v1" []
           2 20 default_select tt = Some r
         /\ answered (requests r)
            = [Sample.record 1; Sample.record 2; Sample.record 2]
         /\ outcome r = Ok [Sample.record 1; Sample.record 2]).
Proof.
  split.
  - apply (proj1 (proj2 (proj2 (fetched_list_is_unique_by_id unit
                                  (Sample.service 4843) "https://api.tzkt.io/v1")))
             [] 20 default_select tt
             (map Sample.record (seq 0 2000))
             (map Sample.record (seq 2000 2000))
             (map Sample.record (seq 4000 843)) tt).
    + lia.
    + exists tt, tt. repeat split; vm_compute; reflexivity.
    + rewrite <- !map_app. apply sample_records_distinct.
      change (seq 0 2000 ++ seq 2000 2000 ++ seq 4000 843)%list
        with (seq 0 2000 ++ seq (0 + 2000) 2000
              ++ seq (0 + 2000 + 2000) 843)%list.
      rewrite <- seq_app, <- seq_app. apply seq_NoDup.
  - eexists. repeat split.
Defined.

(** The sample [retract_ask] transaction, with diffs for other asks and
    actions before the one it names, yields the event of ask "12". *)
Lemma retract_ask_produces_event_witness :
  exists event,
    ObjktRetractAskV2Handler_exec Sample.digest Superstruct.string_
      Superstruct.string_ Superstruct.string_ Sample.positive
      Sample.numeral (VObj Sample.retract_among_other_asks) = Ok event
    /\ get_prop event "ask_id" = VStr "12"
    /\ get_prop event "fa2_address" = VStr "KT1Token"
    /\ get_prop event "id"
       = VStr (Sample.digest "OBJKT_RETRACT_ASK_V3:opHash:7:unset:0").
Proof.
  destruct (retract_ask_produces_event Sample.digest Superstruct.string_
              Superstruct.string_ Superstruct.string_ Sample.positive
              Sample.numeral Sample.marketplace Sample.retract_among_other_asks
              "12" "opHash" (VNum 7) VNull (Sample.ask_diff 574013 "12")
              [VObj [("bigmap", VNum 574013); ("path", VStr "asks");
                     ("action", VStr "remove_key");
                     ("content", VObj [("key", VStr "99")])];
               VObj [("bigmap", VNum 574013); ("path", VStr "asks");
                     ("action", VStr "update_key");
                     ("content", VObj [("key", VStr "12")])]] [])
    as (_ & _ & event & Hexec & Hask & Hid & _);
    try reflexivity.
  - repeat constructor.
  - exists event. split; [exact Hexec|]. split; [exact Hask|].
    split; [|exact Hid].
    vm_compute in Hexec. injection Hexec as <-. reflexivity.
Defined.

(** On the sample transaction, whose id is 42, the handler throws. *)
Lemma eightbid_cancel_swap_exec_always_throws_witness :
  exists e,
    EightbidCancelSwap8x8ColorEvent_exec Sample.digest Superstruct.string_
      Superstruct.string_ Superstruct.string_ Sample.positive
      Superstruct.string_ (VObj Sample.retract_fields) = Throw e.
Proof.
  exact (proj1 (eightbid_cancel_swap_exec_always_throws Sample.digest
                  Superstruct.string_ Superstruct.string_ Superstruct.string_
                  Sample.positive Superstruct.string_
                  (VObj Sample.retract_fields) 42 eq_refl)).
Defined.

(** A record without a counter is refused; one with a [null] nonce is not. *)
Lemma createEventId_throws_iff_field_missing_witness :
  createEventId Sample.digest "T"
    (VObj [("hash", VStr "op"); ("nonce", VNull)]) 0
  = Throw missing_properties
  /\ createEventId Sample.digest "T"
       (VObj [("hash", VStr "op"); ("counter", VNum 7); ("nonce", VNull)]) 0
     = Ok (Sample.digest "T:op:7:unset:0").
Proof.
  split.
  - apply (proj1 (createEventId_throws_iff_field_missing Sample.digest "T"
                    [("hash", VStr "op"); ("nonce", VNull)] 0)).
    right; left. reflexivity.
  - apply (proj1 (proj2 (createEventId_throws_iff_field_missing Sample.digest
                           "T" [("hash", VStr "op"); ("counter", VNum 7);
                                ("nonce", VNull)] 0))
             (VStr "op") (VNum 7) VNull); reflexivity.
Defined.


(** The sample transaction matches the pattern of the retract-ask handler,
    and not one that expects another entrypoint. *)
Lemma transactionMatchesPattern_iff_all_attributes_equal_witness :
  transactionMatchesPattern (VObj Sample.retract_fields)
    [(entrypoint, "retract_ask"); (target_address, Sample.marketplace)] = true
  /\ transactionMatchesPattern (VObj [("target", VObj [("address", VStr "KT1")])])
       [(target_address, "KT1"); (entrypoint, "retract_ask")] = false.
Proof.
  split.
  - apply (proj2 (proj1 (transactionMatchesPattern_iff_all_attributes_equal
                           (VObj Sample.retract_fields)
                           [(entrypoint, "retract_ask");
                            (target_address, Sample.marketplace)]))).
    intros k v [H|[H|[]]]; injection H as <- <-; reflexivity.
  - apply (proj1 (proj2 (transactionMatchesPattern_iff_all_attributes_equal
                           (VObj [("target", VObj [("address", VStr "KT1")])])
                           [(target_address, "KT1"); (entrypoint, "retract_ask")]))
             entrypoint "retract_ask").
    + right. now left.
    + reflexivity.
Defined.

(** Two sub-events of one operation are hashed from different texts. *)
Lemma different_events_are_hashed_from_different_texts_witness :
  String.eqb (eventIdInput "T" (VStr "op") (VNum 7) VNull 0)
    (eventIdInput "T" (VStr "op") (VNum 7) VNull 1) = false.
Proof.
  apply (proj1 (different_events_are_hashed_from_different_texts Sample.digest
                  "T" "T" "op" "op" 7 7 None None 0 1
                  eq_refl eq_refl eq_refl eq_refl
                  ltac:(right; right; right; right; lia))).
Defined.

(** A [null] after the match is harmless to [findDiff], fatal to
    [filterDiffs]. *)
Lemma findDiff_stops_at_first_match_filterDiffs_does_not_witness :
  findDiff (VArr [ledger_diff (VStr "a"); VNull]) (Some 7) "ledger"
    (OneAction "add_key") (VStr "a") = Ok (ledger_diff (VStr "a"))
  /\ exists e,
       filterDiffs (VArr [ledger_diff (VStr "a"); VNull]) (Some 7) "ledger"
         (OneAction "add_key") (VStr "a") = Throw e.
Proof.
  apply (findDiff_stops_at_first_match_filterDiffs_does_not
           [] [VNull] (ledger_diff (VStr "a")) VNull (Some 7) "ledger"
           (OneAction "add_key") (VStr "a")).
  - constructor.
  - reflexivity.
  - simpl. now left.
  - reflexivity.
Defined.

(** Of two [remove_key] diffs at "asks", one of bigmap 1 and one of bigmap
    574013, the unscoped query returns both and the query for bigmap 1 the
    first. *)
Lemma filterDiffs_null_bigmap_is_unscoped_witness :
  filterDiffs (VArr [Sample.ask_diff 1 "a"; Sample.ask_diff 574013 "a"]) None
    "asks" (OneAction "remove_key") VUndefined
  = Ok [Sample.ask_diff 1 "a"; Sample.ask_diff 574013 "a"]
  /\ filterDiffs (VArr [Sample.ask_diff 1 "a"; Sample.ask_diff 574013 "a"])
       (Some 1) "asks" (OneAction "remove_key") VUndefined
     = Ok [Sample.ask_diff 1 "a"].
Proof.
  destruct (filterDiffs_null_bigmap_is_unscoped
              [Sample.ask_diff 1 "a"; Sample.ask_diff 574013 "a"] 1 "asks"
              (OneAction "remove_key") VUndefined eq_refl)
    as (unscoped & Hall & Hone).
  split; [reflexivity|].
  rewrite Hone. injection Hall as <-. reflexivity.
Defined.

(** A transaction without diffs. *)
Lemma objkt_handlers_throw_without_diffs_witness :
  ObjktRetractAskV2Handler_exec Sample.digest Superstruct.string_
    Superstruct.string_ Superstruct.string_ Sample.positive
    Superstruct.string_ (VObj [("id", VNum 1)]) = Throw not_an_array.
Proof.
  exact (proj1 (objkt_handlers_throw_without_diffs Sample.digest
                  Superstruct.string_ Superstruct.string_ Superstruct.string_
                  Sample.positive Superstruct.string_ [] (VStr "sale")
                  (VObj [("id", VNum 1)]) eq_refl)).
Defined.



(** With the prefix "dev", the tasks "a" and "b" stay apart. *)
Lemma getTaskName_keeps_names_apart_witness :
  String.eqb (getTaskName [("TASK_NAME_PREFIX", VStr "dev")] "a")
    (getTaskName [("TASK_NAME_PREFIX", VStr "dev")] "b") = false.
Proof.
  exact (proj1 (getTaskName_keeps_names_apart
                  [("TASK_NAME_PREFIX", VStr "dev")] "a" "b" eq_refl)).
Defined.

